(** * typed-table-demo: the table state codec and its actions

    A shallow embedding of the URL query codec of the table feature
    ([parseTableState], [useTableActions], [useQueryParams], [filterUtils]
    and the older single-file [createTable] variants), with the properties
    of the specification stated over it.

    Conventions of the embedding.
    - The codec reads a [URLSearchParams] object through [get] and writes
      it through [set] and [delete] only.  [get] returns the first value of
      a key, [set] replaces every value of the key and [delete] removes
      them all, so the object is modelled by the finite map from each key
      to its first value, [gmap string string]; [get] of a missing key is
      [null], here [None].
    - The plain object built by [parseFilters] is the finite map of its own
      entries.  The one key an assignment cannot create there is
      [__proto__] ([Js.Object_set]); what that assignment does to the
      object's prototype is not part of the map.
    - JavaScript strings are Rocq strings, a string being the sequence of
      the bytes of its UTF-8 encoding; [null] is [None].
    - A call that may throw returns a [Js.Completion].
    - A hook action either pushes a new query map to the router, returns
      without pushing, or throws: [Outcome]. *)

From Stdlib Require Import ZArith Lia Ascii.
From stdpp Require Import base option list gmap strings fin_maps pretty.

(** ** JavaScript primitives used by the codec *)

Module Js.

(** Normal or abrupt completion of a call. *)
Inductive Completion (A : Type) : Type :=
| Ret (a : A)
| Throw.
Arguments Ret {A} a.
Arguments Throw {A}.

Definition bind {A B} (m : Completion A) (k : A -> Completion B) : Completion B :=
  match m with
  | Ret a => k a
  | Throw => Throw
  end.

(** [try { body } catch { handler }] *)
Definition try_catch {A} (body : Completion A) (handler : Completion A) : Completion A :=
  match body with
  | Ret a => Ret a
  | Throw => handler
  end.

(** A Number that is either NaN or the Number value of an integer.
    [Int z] stands for the Number obtained from the mathematical integer
    [z]: [z] itself up to 2^53 in magnitude, its nearest double beyond
    that, and an infinity beyond the range of doubles.  The conversion is
    monotone and fixes 1, so comparisons with 1 can be read off [z]; a
    statement below that reads [Int z] as the integer [z] itself says so
    with the bound 2^53 (or 10^21 where only [toString] and [parseInt] of
    the same Number meet). *)
Inductive Number : Type :=
| NaN
| Int (z : Z).

(** [n >= 1] on Numbers; every comparison with NaN is false. *)
Definition ge_one (n : Number) : bool :=
  match n with
  | NaN => false
  | Int z => (1 <=? z)%Z
  end.

Definition is_digit (c : ascii) : bool :=
  match Ascii.is_nat c with
  | Some _ => true
  | None => false
  end.

Definition digit_value (c : ascii) : option Z :=
  Z.of_nat <$> Ascii.is_nat c.

(** Value of a hexadecimal digit (either case). *)
Definition hex_digit_value (c : ascii) : option Z :=
  match digit_value c with
  | Some d => Some d
  | None =>
      match c with
      | "a" | "A" => Some 10 | "b" | "B" => Some 11 | "c" | "C" => Some 12
      | "d" | "D" => Some 13 | "e" | "E" => Some 14 | "f" | "F" => Some 15
      | _ => None
      end%char%Z
  end.

(** [s.split(sep)] for a one-character separator: never empty, the
    empty string splits into one empty token. *)
Fixpoint split (sep : ascii) (s : string) : list string :=
  match s with
  | EmptyString => [EmptyString]
  | String c s' =>
      if decide (c = sep) then EmptyString :: split sep s'
      else match split sep s' with
           | t :: ts => String c t :: ts
           | [] => [String c EmptyString]
           end
  end.

(** [l.join(sep)] *)
Fixpoint join (sep : string) (l : list string) : string :=
  match l with
  | [] => EmptyString
  | [x] => x
  | x :: rest => x +:+ sep +:+ join sep rest
  end.

Fixpoint contains (c : ascii) (s : string) : bool :=
  match s with
  | EmptyString => false
  | String d s' => if decide (d = c) then true else contains c s'
  end.

(** [/[0-9]+/.test(s)]: the pattern is not anchored, so it succeeds as
    soon as some character of [s] is a decimal digit. *)
Fixpoint test_digits (s : string) : bool :=
  match s with
  | EmptyString => false
  | String c s' => is_digit c || test_digits s'
  end.

(** [/^[1-9][0-9]*$/.test(s)] *)
Fixpoint all_digits (s : string) : bool :=
  match s with
  | EmptyString => true
  | String c s' => is_digit c && all_digits s'
  end.

Definition test_positive_decimal (s : string) : bool :=
  match s with
  | EmptyString => false
  | String c s' => is_digit c && negb (bool_decide (c = "0"%char)) && all_digits s'
  end.

(** The longest prefix of [s] made of digits of the radix, folded into
    its value; [None] when that prefix is empty. *)
Fixpoint digits_prefix (dv : ascii -> option Z) (radix : Z) (acc : option Z)
    (s : string) : option Z :=
  match s with
  | EmptyString => acc
  | String c s' =>
      match dv c with
      | Some d => digits_prefix dv radix (Some (radix * default 0%Z acc + d)%Z) s'
      | None => acc
      end
  end.

(** The third byte of the white space and line terminator code points
    whose encoding starts with the bytes 226, 128: U+2000 to U+200A,
    U+2028, U+2029 and U+202F. *)
Definition is_general_punctuation_space (c : ascii) : bool :=
  let n := nat_of_ascii c in
  ((128 <=? n) && (n <=? 138) || (n =? 168) || (n =? 169) || (n =? 175))%nat.

(** The white space that [parseInt] skips: the ASCII white space
    characters and, in their UTF-8 encoding, U+00A0, U+1680, U+2000 to
    U+200A, U+2028, U+2029, U+202F, U+205F, U+3000 and U+FEFF. *)
Fixpoint trim_start (s : string) : string :=
  match s with
  | EmptyString => EmptyString
  | String c s' =>
      if Ascii.is_space c then trim_start s'
      else
        match s with
        | String "194" (String "160" r) => trim_start r
        | String "225" (String "154" (String "128" r)) => trim_start r
        | String "226" (String "128" (String c3 r)) =>
            if is_general_punctuation_space c3 then trim_start r else s
        | String "226" (String "129" (String "159" r)) => trim_start r
        | String "227" (String "128" (String "128" r)) => trim_start r
        | String "239" (String "187" (String "191" r)) => trim_start r
        | _ => s
        end
  end.

(** [parseInt(s)] with no radix argument: leading white space is
    skipped, then an optional sign, then an optional [0x]/[0X] prefix
    (which selects radix 16), then the longest run of digits; NaN when
    that run is empty.  Trailing characters are ignored.  The result is
    the Number value of the integer read, [Int z] in the sense given
    with [Number]. *)
Definition parseInt (s : string) : Number :=
  let s1 := trim_start s in
  let '(sign, s2) :=
    match s1 with
    | String "-" r => ((-1)%Z, r)
    | String "+" r => (1%Z, r)
    | _ => (1%Z, s1)
    end in
  let r :=
    match s2 with
    | String "0" (String "x" r) | String "0" (String "X" r) =>
        digits_prefix hex_digit_value 16 None r
    | _ => digits_prefix digit_value 10 None s2
    end in
  match r with
  | Some z => Int (sign * z)
  | None => NaN
  end.

(** [Number(s)] on a string already matched by [/^[1-9][0-9]*$/]: the
    Number value of the integer it denotes, [Int z] in the sense given
    with [Number]. *)
Definition Number_of_decimal (s : string) : Number :=
  match digits_prefix digit_value 10 None s with
  | Some z => Int z
  | None => NaN
  end.

(** Truthiness of a [string | null] operand of [&&]. *)
Definition truthy (s : option string) : bool :=
  match s with
  | Some (String _ _) => true
  | _ => false
  end.

(** [o[k] = v] on a plain object (one created by [{}]), as it shows in
    the object's own entries.  Every key gets an own entry but
    [__proto__]: assigning to that name runs the setter inherited from
    [Object.prototype], which replaces the prototype of [o] when [v] is an
    object and does nothing otherwise; in neither case is an own entry
    created.  Values are plain data: a prototype replaced by one brings no
    setter and no read-only entry, so later assignments are as on [{}]. *)
Definition Object_set {V : Type} (k : string) (v : V) (o : gmap string V)
    : gmap string V :=
  if bool_decide (k = "__proto__") then o else <[k := v]> o.

End Js.

Example split_id_age : Js.split "," "id,age" = ["id"; "age"].
Proof. reflexivity. Qed.
Example split_empty : Js.split "," "" = [""].
Proof. reflexivity. Qed.
Example split_trailing : Js.split "," "a,,b," = ["a"; ""; "b"; ""].
Proof. reflexivity. Qed.
Example join_three : Js.join "," ["id"; "name"; "age"] = "id,name,age".
Proof. reflexivity. Qed.
Example parseInt_5 : Js.parseInt "5" = Js.Int 5.
Proof. reflexivity. Qed.
Example parseInt_words : Js.parseInt "invalid_page" = Js.NaN.
Proof. reflexivity. Qed.
Example parseInt_prefix : Js.parseInt "  -12px" = Js.Int (-12).
Proof. reflexivity. Qed.
Example parseInt_hex : Js.parseInt "0x1f" = Js.Int 31.
Proof. reflexivity. Qed.
Example parseInt_no_break_space :
  Js.parseInt (String "194" (String "160" " +7")) = Js.Int 7.
Proof. reflexivity. Qed.
Example parseInt_zero_width_space :
  Js.parseInt (String "226" (String "128" (String "139" "7"))) = Js.NaN.
Proof. reflexivity. Qed.

(** ** Data model (types.ts) *)

(** The raw query map: what [useSearchParams] returns. *)
Abbreviation RawQueryMap := (gmap string string).

(** [TableOptions] *)
Record TableOptions : Type := {
  queryParamPrefix : option string;
}.

Inductive SortOrder : Type := asc | desc.

Global Instance SortOrder_eq_dec : EqDecision SortOrder.
Proof. solve_decision. Defined.

Definition SortOrder_to_string (o : SortOrder) : string :=
  match o with
  | asc => "asc"
  | desc => "desc"
  end.

(** The [sort] field of [TableState]. *)
Module Sort.
Record t : Type := {
  sortBy : option string;
  sortOrder : option SortOrder;
}.
End Sort.

Section Columns.

(** The type of filter conditions.  A column's condition type is erased
    to one universe of values, as [ColumnFilterDefinition<any>] does. *)
Context {V : Type}.

(** [ColumnFilterDefinition]: the two render hooks are presentation
    only and are left out.  [decodeFromUrl] returns a condition, [null]
    ([None]) or throws. *)
Record ColumnFilterDefinition : Type := {
  initial : option V;
  encodeForUrl : V -> Js.Completion string;
  decodeFromUrl : string -> Js.Completion (option V);
}.

(** [ColumnDefinition] without [renderHeadCell]. *)
Record ColumnDefinition : Type := {
  key : string;
  filter : option ColumnFilterDefinition;
  sortable : bool;
  initialVisibility : bool;
}.

(** [TableState].  Its [filter] field is [filterState] here (the name
    [filter] is taken by [ColumnDefinition]): the object built by
    [parseFilters], a finite map from column keys to conditions. *)
Record TableState : Type := {
  keywordSearch : option string;
  sort : Sort.t;
  columnVisibility : list string;
  pagination : Js.Number;
  filterState : gmap string V;
}.

End Columns.

Arguments ColumnFilterDefinition : clear implicits.
Arguments ColumnDefinition : clear implicits.
Arguments TableState : clear implicits.

(** ** parseTableState.ts *)

Module QueryKeys.
Record t : Type := {
  keywordSearch : string;
  sortBy : string;
  sortOrder : string;
  columnVisibility : string;
  page : string;
  filterPrefix : string;
}.
End QueryKeys.

Definition getQueryKeys (options : option TableOptions) : QueryKeys.t :=
  let prefix := default "table" (options ≫= queryParamPrefix) in
  let filterPrefix := prefix +:+ "_filter_" in
  {| QueryKeys.keywordSearch := prefix +:+ "_keyword";
     QueryKeys.sortBy := prefix +:+ "_sort_by";
     QueryKeys.sortOrder := prefix +:+ "_sort_order";
     QueryKeys.columnVisibility := prefix +:+ "_columns";
     QueryKeys.page := prefix +:+ "_page";
     QueryKeys.filterPrefix := filterPrefix |}.

Section Decoder.

Context {V : Type}.
Local Abbreviation Column := (ColumnDefinition V).

(** [columnDefinitions.some((col) => col.key === k)] *)
Definition is_defined (columnDefinitions : list Column) (k : string) : bool :=
  existsb (fun col => bool_decide (key col = k)) columnDefinitions.

(** [columnDefinitions.some((col) => col.key === k && col.sortable)] *)
Definition is_sortable (columnDefinitions : list Column) (k : string) : bool :=
  existsb (fun col => bool_decide (key col = k) && sortable col) columnDefinitions.

(** The registry's default-visible keys, in registry order. *)
Definition initially_visible (columnDefinitions : list Column) : list string :=
  map key (List.filter initialVisibility columnDefinitions).

Definition parseColumnVisibility (columnVisibilityParam : option string)
    (columnDefinitions : list Column) : list string :=
  let columnVisibilityArrayFromParam :=
    List.filter (is_defined columnDefinitions)
      (Js.split "," (default "" columnVisibilityParam)) in
  if (0 <? length columnVisibilityArrayFromParam)%nat
  then columnVisibilityArrayFromParam
  else initially_visible columnDefinitions.

(** One iteration of the [forEach] of [parseFilters]: the inner
    [try]/[catch] swallows what [decodeFromUrl] throws. *)
Definition parseFilters_step (searchParams : RawQueryMap) (queryKeys : QueryKeys.t)
    (acc : gmap string V) (col : Column) : gmap string V :=
  let colKey := key col in
  match filter col with
  | Some f =>
      let filterParamKey := QueryKeys.filterPrefix queryKeys +:+ colKey in
      match searchParams !! filterParamKey with
      | Some encodedFilterValue =>
          match decodeFromUrl f encodedFilterValue with
          | Js.Ret (Some filterValue) => Js.Object_set colKey filterValue acc
          | Js.Ret None => acc
          | Js.Throw => acc
          end
      | None => acc
      end
  | None => acc
  end.

Definition parseFilters (searchParams : RawQueryMap) (queryKeys : QueryKeys.t)
    (columnDefinitions : list Column) : gmap string V :=
  fold_left (parseFilters_step searchParams queryKeys) columnDefinitions ∅.

Definition parseTableState (searchParams : RawQueryMap) (queryKeys : QueryKeys.t)
    (columnDefinitions : list Column) : TableState V :=
  let keywordSearch := searchParams !! QueryKeys.keywordSearch queryKeys in
  let sortByParam := searchParams !! QueryKeys.sortBy queryKeys in
  let sortBy :=
    if Js.truthy sortByParam && is_sortable columnDefinitions (default "" sortByParam)
    then sortByParam else None in
  let sortOrderParam := searchParams !! QueryKeys.sortOrder queryKeys in
  let sortOrder :=
    if bool_decide (sortOrderParam = Some "asc") then Some asc
    else if bool_decide (sortOrderParam = Some "desc") then Some desc
    else None in
  let columnVisibilityParam := searchParams !! QueryKeys.columnVisibility queryKeys in
  let columnVisibility := parseColumnVisibility columnVisibilityParam columnDefinitions in
  let pageParam := searchParams !! QueryKeys.page queryKeys in
  let pagination :=
    if Js.test_digits (default "" pageParam)
    then Js.parseInt (default "" pageParam)
    else Js.Int 1 in
  let filter := parseFilters searchParams queryKeys columnDefinitions in
  {| keywordSearch := keywordSearch;
     sort := {| Sort.sortBy := sortBy; Sort.sortOrder := sortOrder |};
     columnVisibility := columnVisibility;
     pagination := pagination;
     filterState := filter |}.

End Decoder.

(** ** useQueryParams.ts, useTableState.ts, useTableActions.ts *)

(** What an action does to the router. *)
Inductive Outcome : Type :=
| Pushed (newParams : RawQueryMap)
| Returned
| Threw.

(** The loop of [updateQueryParams] over [Object.entries(updates)]: the
    entries come in the order the object literal lists them. *)
Definition apply_update (newParams : RawQueryMap) (entry : string * option string)
    : RawQueryMap :=
  match entry.2 with
  | None => delete entry.1 newParams
  | Some value => <[entry.1 := value]> newParams
  end.

Definition updateQueryParams (searchParams : RawQueryMap) (queryKeys : QueryKeys.t)
    (updates : list (string * option string)) (resetPage : bool) : Outcome :=
  let newParams := fold_left apply_update updates searchParams in
  let newParams :=
    if resetPage then delete (QueryKeys.page queryKeys) newParams else newParams in
  Pushed newParams.

Section Actions.

Context {V : Type}.
Local Abbreviation Column := (ColumnDefinition V).

Definition useTableState (columnDefinitions : list Column)
    (options : option TableOptions) (searchParams : RawQueryMap) : TableState V :=
  parseTableState searchParams (getQueryKeys options) columnDefinitions.

(** The actions of [useTableActions columnDefinitions tableState options],
    run against the query map [searchParams] of the current render. *)
Section UseTableActions.

Variable columnDefinitions : list Column.
Variable tableState : TableState V.
Variable options : option TableOptions.
Variable searchParams : RawQueryMap.

Let queryKeys := getQueryKeys options.

Definition setKeywordSearch (keyword : string) : Outcome :=
  updateQueryParams searchParams queryKeys
    [(QueryKeys.keywordSearch queryKeys,
      if Js.truthy (Some keyword) then Some keyword else None)]
    true.

Definition setSort (sortBy : option string) (sortOrder : option SortOrder) : Outcome :=
  updateQueryParams searchParams queryKeys
    [(QueryKeys.sortBy queryKeys, sortBy);
     (QueryKeys.sortOrder queryKeys, SortOrder_to_string <$> sortOrder)]
    false.

Definition toggleSort (sortBy : string) : Outcome :=
  if bool_decide (Sort.sortBy (sort tableState) = Some sortBy) then
    if bool_decide (Sort.sortOrder (sort tableState) = Some asc) then
      setSort (Some sortBy) (Some desc)
    else
      setSort None None
  else
    setSort (Some sortBy) (Some asc).

Definition setColumnVisibility (columnKey : string) (isVisible : bool) : Outcome :=
  let newVisibleColumns :=
    if isVisible then columnVisibility tableState ++ [columnKey]
    else List.filter (fun col => negb (bool_decide (col = columnKey)))
           (columnVisibility tableState) in
  if (length newVisibleColumns =? 0)%nat then Returned
  else
    updateQueryParams searchParams queryKeys
      [(QueryKeys.columnVisibility queryKeys, Some (Js.join "," newVisibleColumns))]
      false.

Definition setFilter (columnKey : string) (filterValue : option V) : Outcome :=
  let filterParamKey := QueryKeys.filterPrefix queryKeys +:+ columnKey in
  match filterValue with
  | None => updateQueryParams searchParams queryKeys [(filterParamKey, None)] true
  | Some filterValue =>
      let columnDef :=
        List.find (fun col => bool_decide (key col = columnKey)) columnDefinitions in
      match columnDef ≫= filter with
      | Some f =>
          match encodeForUrl f filterValue with
          | Js.Ret encodedValue =>
              updateQueryParams searchParams queryKeys
                [(filterParamKey, Some encodedValue)] true
          | Js.Throw => Threw
          end
      | None => Returned
      end
  end.

End UseTableActions.

(** [createTable(columnDefinitions, options).useTable()]: the state is
    decoded from the current query map and handed to the actions. *)
Section UseTable.

Variable columnDefinitions : list Column.
Variable options : option TableOptions.
Variable searchParams : RawQueryMap.

Let state := useTableState columnDefinitions options searchParams.

Definition useTable_state : TableState V := state.

Definition useTable_setSort := setSort options searchParams.
Definition useTable_toggleSort := toggleSort state options searchParams.
Definition useTable_setColumnVisibility :=
  setColumnVisibility state options searchParams.
Definition useTable_setFilter := setFilter columnDefinitions options searchParams.

End UseTable.

End Actions.

(** ** Facts about the primitives *)

Section StringFacts.

Lemma string_app_nil_l (s : string) : "" +:+ s = s.
Proof. reflexivity. Qed.

Lemma string_app_cons (c : ascii) (s t : string) :
  String c s +:+ t = String c (s +:+ t).
Proof. reflexivity. Qed.

Lemma string_app_inv_head (p a b : string) : p +:+ a = p +:+ b -> a = b.
Proof.
  induction p as [|c p IH]; [done|].
  rewrite !string_app_cons. intros [= H]. auto.
Qed.

Lemma join_cons_cons (sep x y : string) (l : list string) :
  Js.join sep (x :: y :: l) = x +:+ sep +:+ Js.join sep (y :: l).
Proof. reflexivity. Qed.

Lemma split_not_nil (sep : ascii) (s : string) : Js.split sep s <> [].
Proof.
  induction s as [|c s IH]; simpl; [done|].
  case_decide; [done|]. by destruct (Js.split sep s).
Qed.

(** [split] is a right inverse of [join]: the tokens, put back together
    with the separator, are the string that was split. *)
Lemma join_split (sep : ascii) (s : string) :
  Js.join (String sep "") (Js.split sep s) = s.
Proof.
  induction s as [|c s IH]; simpl; [done|].
  pose proof (split_not_nil sep s) as Hne.
  case_decide as Hc.
  - subst c. destruct (Js.split sep s) as [|t ts] eqn:E; [done|].
    rewrite join_cons_cons, string_app_nil_l, string_app_cons, string_app_nil_l.
    by rewrite IH.
  - destruct (Js.split sep s) as [|t ts] eqn:E; [done|].
    destruct ts as [|u us].
    + simpl in *. by rewrite IH.
    + rewrite join_cons_cons in *. rewrite string_app_cons. by f_equal.
Qed.

(** No token contains the separator. *)
Lemma split_tokens_no_sep (sep : ascii) (s t : string) :
  t ∈ Js.split sep s -> Js.contains sep t = false.
Proof.
  revert t. induction s as [|c s IH]; simpl; intros t Ht.
  - apply list_elem_of_singleton in Ht. by subst.
  - case_decide as Hc.
    + apply elem_of_cons in Ht as [->|Ht]; [done|]. by apply IH.
    + destruct (Js.split sep s) as [|u us] eqn:E.
      * apply list_elem_of_singleton in Ht. subst. simpl. by case_decide.
      * apply elem_of_cons in Ht as [->|Ht].
        -- simpl. case_decide; [done|]. apply IH. by left.
        -- apply IH. by right.
Qed.

End StringFacts.

(** ** Pagination *)

(** The integer a string of decimal digits denotes, by position. *)
Fixpoint decimal_value (s : string) : Z :=
  match s with
  | EmptyString => 0
  | String c s' =>
      (default 0 (Js.digit_value c) * 10 ^ Z.of_nat (String.length s') + decimal_value s')%Z
  end.

Lemma is_digit_value (c : ascii) :
  Js.is_digit c = true -> exists d, Js.digit_value c = Some d /\ (0 <= d <= 9)%Z.
Proof.
  unfold Js.is_digit, Js.digit_value.
  destruct c as [[] [] [] [] [] [] [] []]; simpl; try discriminate;
    intros _; eexists; (split; [reflexivity | lia]).
Qed.

Lemma is_digit_plain (c : ascii) :
  Js.is_digit c = true ->
  Ascii.is_space c = false /\ c <> "-"%char /\ c <> "+"%char /\
  c <> "x"%char /\ c <> "X"%char.
Proof.
  unfold Js.is_digit.
  destruct c as [[] [] [] [] [] [] [] []]; simpl; try discriminate; intros _;
    repeat split; discriminate.
Qed.

Lemma not_digit_value (c : ascii) : Js.is_digit c = false -> Js.digit_value c = None.
Proof. unfold Js.is_digit, Js.digit_value. by destruct (Ascii.is_nat c). Qed.

Lemma decimal_value_nonneg (s : string) : (0 <= decimal_value s)%Z.
Proof.
  induction s as [|c s IH]; simpl; [lia|].
  destruct (Js.digit_value c) as [d|] eqn:E; simpl; [|lia].
  unfold Js.digit_value in E. destruct (Ascii.is_nat c); simplify_eq/=. nia.
Qed.

Lemma digits_prefix_all_digits (s : string) (a : Z) :
  Js.all_digits s = true ->
  Js.digits_prefix Js.digit_value 10 (Some a) s =
    Some (a * 10 ^ Z.of_nat (String.length s) + decimal_value s)%Z.
Proof.
  revert a. induction s as [|c s IH]; intros a Hs.
  - simpl. f_equal. lia.
  - simpl in Hs. apply andb_prop in Hs as [Hc Hs].
    destruct (is_digit_value c Hc) as (d & Hd & _).
    cbn [Js.digits_prefix decimal_value String.length]. rewrite Hd, (IH _ Hs).
    cbn [default]. rewrite Nat2Z.inj_succ, Z.pow_succ_r by lia.
    apply (f_equal Some). unfold id. ring.
Qed.

Lemma digits_prefix_all_digits_start (c : ascii) (s : string) :
  Js.all_digits (String c s) = true ->
  Js.digits_prefix Js.digit_value 10 None (String c s) =
    Some (decimal_value (String c s)).
Proof.
  intros Hs. pose proof Hs as Hs'. simpl in Hs'. apply andb_prop in Hs' as [Hc Hs'].
  destruct (is_digit_value c Hc) as (d & Hd & _).
  cbn [Js.digits_prefix decimal_value]. rewrite Hd, (digits_prefix_all_digits _ _ Hs').
  cbn [default]. apply (f_equal Some). unfold id. ring.
Qed.

(** Nothing is trimmed from a string that starts with a digit. *)
Lemma trim_start_digit (c : ascii) (s : string) :
  Js.is_digit c = true -> Js.trim_start (String c s) = String c s.
Proof.
  unfold Js.is_digit.
  destruct c as [[] [] [] [] [] [] [] []]; simpl; try discriminate; reflexivity.
Qed.

(** On a non-empty string of decimal digits, [parseInt] is the decimal value. *)
Lemma parseInt_all_digits (s : string) :
  s <> "" -> Js.all_digits s = true -> Js.parseInt s = Js.Int (decimal_value s).
Proof.
  intros Hne Hs. destruct s as [|c s]; [done|].
  pose proof Hs as Hs'. simpl in Hs'. apply andb_prop in Hs' as [Hc Hs'].
  destruct (is_digit_plain c Hc) as (Hsp & Hm & Hp & Hx & HX).
  unfold Js.parseInt. rewrite trim_start_digit by done.
  assert (Hr : Js.digits_prefix Js.digit_value 10 None (String c s)
               = Some (decimal_value (String c s))).
  { by apply digits_prefix_all_digits_start. }
  assert (Hsign : match String c s with
                  | String "-" r => ((-1)%Z, r)
                  | String "+" r => (1%Z, r)
                  | _ => (1%Z, String c s)
                  end = (1%Z, String c s)).
  { destruct c as [[] [] [] [] [] [] [] []]; try reflexivity; congruence. }
  rewrite Hsign.
  assert (Hpre : match String c s with
                 | String "0" (String "x" r) | String "0" (String "X" r) =>
                     Js.digits_prefix Js.hex_digit_value 16 None r
                 | _ => Js.digits_prefix Js.digit_value 10 None (String c s)
                 end = Js.digits_prefix Js.digit_value 10 None (String c s)).
  { destruct s as [|c2 s2]; [by destruct c as [[] [] [] [] [] [] [] []]|].
    simpl in Hs'. apply andb_prop in Hs' as [Hc2 _].
    destruct (is_digit_plain c2 Hc2) as (_ & _ & _ & Hx2 & HX2).
    destruct c as [[] [] [] [] [] [] [] []]; try reflexivity;
      destruct c2 as [[] [] [] [] [] [] [] []]; try reflexivity; congruence. }
  rewrite Hpre, Hr. f_equal. lia.
Qed.

Lemma all_digits_test_digits (s : string) :
  s <> "" -> Js.all_digits s = true -> Js.test_digits s = true.
Proof.
  destruct s as [|c s]; [done|]. simpl. intros _ H.
  apply andb_prop in H as [-> _]. done.
Qed.

Lemma ge_one_Int (z : Z) : Js.ge_one (Js.Int z) = true <-> (1 <= z)%Z.
Proof. simpl. apply Z.leb_le. Qed.

(** The decoded [pagination] of a page value that is a non-empty string
    of decimal digits is at least 1 exactly when the digits do not denote
    zero, and it is the integer they denote when that is at most 2^53
    (beyond, [parseInt] rounds).  It is 1 when the value is absent or
    contains no decimal digit. *)
Lemma pagination_decoded {V : Type} (columnDefinitions : list (ColumnDefinition V))
    (options : option TableOptions) (searchParams : RawQueryMap) :
  let pageParam := searchParams !! QueryKeys.page (getQueryKeys options) in
  let p := pagination (useTableState columnDefinitions options searchParams) in
  (forall s, pageParam = Some s -> s <> "" -> Js.all_digits s = true ->
     (Js.ge_one p = true <-> decimal_value s <> 0%Z) /\
     ((decimal_value s <= 2 ^ 53)%Z -> p = Js.Int (decimal_value s))) /\
  (pageParam = None -> p = Js.Int 1) /\
  (forall s, pageParam = Some s -> Js.test_digits s = false -> p = Js.Int 1).
Proof.
  cbn zeta. unfold useTableState, parseTableState. cbn [pagination].
  split; [|split].
  - intros s Hpage Hne Hdigits. rewrite Hpage. cbn [default]. unfold id.
    rewrite all_digits_test_digits, parseInt_all_digits by done.
    split; [|done]. rewrite ge_one_Int.
    pose proof (decimal_value_nonneg s). lia.
  - intros ->. reflexivity.
  - intros s -> Hs. cbn [default]. unfold id. by rewrite Hs.
Qed.

Example pagination_five :
  pagination (useTableState (V:=unit) [] None {[ "table_page" := "5" ]}) = Js.Int 5.
Proof. reflexivity. Qed.

Example pagination_no_digit :
  pagination (useTableState (V:=unit) [] None {[ "table_page" := "x" ]}) = Js.Int 1.
Proof. reflexivity. Qed.

(** ** Sorting *)

Lemma sort_keys_distinct (options : option TableOptions) :
  QueryKeys.sortBy (getQueryKeys options) <> QueryKeys.sortOrder (getQueryKeys options).
Proof.
  unfold getQueryKeys. cbn [QueryKeys.sortBy QueryKeys.sortOrder].
  intros H. by apply string_app_inv_head in H.
Qed.

(** The state of the two sort keys of a query map. *)
Definition sort_keys (options : option TableOptions) (m : RawQueryMap)
    : option string * option string :=
  (m !! QueryKeys.sortBy (getQueryKeys options),
   m !! QueryKeys.sortOrder (getQueryKeys options)).

(** Exactly one of the two sort keys is present. *)
Definition partial_sort (options : option TableOptions) (m : RawQueryMap) : bool :=
  match sort_keys options m with
  | (Some _, None) | (None, Some _) => true
  | _ => false
  end.

Lemma setSort_pushes (options : option TableOptions) (searchParams : RawQueryMap)
    (sortBy : option string) (sortOrder : option SortOrder) :
  exists newParams,
    setSort options searchParams sortBy sortOrder = Pushed newParams /\
    sort_keys options newParams = (sortBy, SortOrder_to_string <$> sortOrder) /\
    forall k, k <> QueryKeys.sortBy (getQueryKeys options) ->
              k <> QueryKeys.sortOrder (getQueryKeys options) ->
              newParams !! k = searchParams !! k.
Proof.
  pose proof (sort_keys_distinct options) as Hne.
  unfold setSort, updateQueryParams, sort_keys, apply_update. cbn [fold_left fst snd].
  eexists. split; [reflexivity|]. split.
  - destruct sortBy, sortOrder; cbn [fmap option_fmap option_map]; f_equal;
      by simplify_map_eq.
  - intros k H1 H2.
    destruct sortBy, sortOrder; cbn [fmap option_fmap option_map]; by simplify_map_eq.
Qed.

(** C2: [setSort] of [useTableActions] hands both arguments to
    [updateQueryParams] unguarded, so a call with exactly one [null]
    argument writes one sort key and deletes the other. *)
Theorem setSort_partial_write (options : option TableOptions)
    (searchParams : RawQueryMap) (sortBy : string) (sortOrder : SortOrder) :
  (exists newParams,
     setSort options searchParams (Some sortBy) None = Pushed newParams /\
     sort_keys options newParams = (Some sortBy, None) /\
     partial_sort options newParams = true) /\
  (exists newParams,
     setSort options searchParams None (Some sortOrder) = Pushed newParams /\
     sort_keys options newParams = (None, Some (SortOrder_to_string sortOrder)) /\
     partial_sort options newParams = true).
Proof.
  split.
  - destruct (setSort_pushes options searchParams (Some sortBy) None)
      as (m & Hm & Hk & _).
    exists m. unfold partial_sort. by rewrite Hk.
  - destruct (setSort_pushes options searchParams None (Some sortOrder))
      as (m & Hm & Hk & _).
    exists m. unfold partial_sort. by rewrite Hk.
Qed.

Example setSort_id_null :
  setSort None ∅ (Some "id") None = Pushed {[ "table_sort_by" := "id" ]}.
Proof. reflexivity. Qed.

(** With both arguments non-null both keys are written, with both
    [null] both are deleted. *)
Lemma setSort_both (options : option TableOptions) (searchParams : RawQueryMap)
    (sortBy : string) (sortOrder : SortOrder) :
  (exists newParams,
     setSort options searchParams (Some sortBy) (Some sortOrder) = Pushed newParams /\
     sort_keys options newParams = (Some sortBy, Some (SortOrder_to_string sortOrder))) /\
  (exists newParams,
     setSort options searchParams None None = Pushed newParams /\
     sort_keys options newParams = (None, None)).
Proof.
  split.
  - destruct (setSort_pushes options searchParams (Some sortBy) (Some sortOrder))
      as (m & Hm & Hk & _). eauto.
  - destruct (setSort_pushes options searchParams None None) as (m & Hm & Hk & _). eauto.
Qed.

(** The single-file [createTable] keeps its own [setSort], which guards
    the two writes. *)
Module SingleFile.

Record TableOptions : Type := {
  tableName : option string;
}.

Definition baseQueryKeys : QueryKeys.t :=
  {| QueryKeys.keywordSearch := "keyword";
     QueryKeys.sortBy := "sortBy";
     QueryKeys.sortOrder := "sortOrder";
     QueryKeys.columnVisibility := "columns";
     QueryKeys.page := "page";
     QueryKeys.filterPrefix := "f_" |}.

Definition queryKeys (options : option TableOptions) : QueryKeys.t :=
  let prefix :=
    if Js.truthy (options ≫= tableName)
    then default "" (options ≫= tableName) +:+ "_" else "" in
  {| QueryKeys.keywordSearch := prefix +:+ QueryKeys.keywordSearch baseQueryKeys;
     QueryKeys.sortBy := prefix +:+ QueryKeys.sortBy baseQueryKeys;
     QueryKeys.sortOrder := prefix +:+ QueryKeys.sortOrder baseQueryKeys;
     QueryKeys.columnVisibility := prefix +:+ QueryKeys.columnVisibility baseQueryKeys;
     QueryKeys.page := prefix +:+ QueryKeys.page baseQueryKeys;
     QueryKeys.filterPrefix := prefix +:+ QueryKeys.filterPrefix baseQueryKeys |}.

Definition setSort (options : option TableOptions) (searchParams : RawQueryMap)
    (sortBy : option string) (sortOrder : option SortOrder) : Outcome :=
  let newParams := searchParams in
  let newParams :=
    if Js.truthy sortBy && Js.truthy (SortOrder_to_string <$> sortOrder) then
      <[QueryKeys.sortOrder (queryKeys options) :=
          default "" (SortOrder_to_string <$> sortOrder)]>
        (<[QueryKeys.sortBy (queryKeys options) := default "" sortBy]> newParams)
    else
      delete (QueryKeys.sortOrder (queryKeys options))
        (delete (QueryKeys.sortBy (queryKeys options)) newParams) in
  Pushed newParams.

Lemma queryKeys_sort_distinct (options : option TableOptions) :
  QueryKeys.sortBy (queryKeys options) <> QueryKeys.sortOrder (queryKeys options).
Proof.
  unfold queryKeys. cbn [QueryKeys.sortBy QueryKeys.sortOrder baseQueryKeys].
  intros H. by apply string_app_inv_head in H.
Qed.

(** The guarded [setSort] leaves the two keys both present or both absent. *)
Lemma setSort_never_partial (options : option TableOptions)
    (searchParams : RawQueryMap) (sortBy : option string) (sortOrder : option SortOrder) :
  exists newParams,
    setSort options searchParams sortBy sortOrder = Pushed newParams /\
    (is_Some (newParams !! QueryKeys.sortBy (queryKeys options)) <->
     is_Some (newParams !! QueryKeys.sortOrder (queryKeys options))).
Proof.
  pose proof (queryKeys_sort_distinct options) as Hne.
  unfold setSort. eexists. split; [reflexivity|].
  destruct (Js.truthy sortBy && Js.truthy (SortOrder_to_string <$> sortOrder));
    simplify_map_eq; split; intros [? ?]; by eauto.
Qed.

End SingleFile.

(** ** Column visibility *)

Section Visibility.

Context {V : Type}.
Local Abbreviation Column := (ColumnDefinition V).

(** The tokens of the columns value that name a defined column. *)
Definition retained (columnDefinitions : list Column) (param : option string)
    : list string :=
  List.filter (is_defined columnDefinitions) (Js.split "," (default "" param)).

Lemma is_defined_spec (columnDefinitions : list Column) (k : string) :
  is_defined columnDefinitions k = true <-> exists col, col ∈ columnDefinitions /\ key col = k.
Proof.
  unfold is_defined. rewrite existsb_exists. split.
  - intros (col & Hin & Hk). exists col. split; [by apply list_elem_of_In|].
    by apply bool_decide_eq_true in Hk.
  - intros (col & Hin & Hk). exists col. split; [by apply list_elem_of_In|].
    by apply bool_decide_eq_true.
Qed.

Lemma parseColumnVisibility_cases (param : option string) (columnDefinitions : list Column) :
  parseColumnVisibility param columnDefinitions =
    match retained columnDefinitions param with
    | [] => initially_visible columnDefinitions
    | l => l
    end.
Proof.
  unfold parseColumnVisibility, retained.
  by destruct (List.filter _ _).
Qed.


Lemma useTableState_columnVisibility (columnDefinitions : list Column)
    (options : option TableOptions) (searchParams : RawQueryMap) :
  columnVisibility (useTableState columnDefinitions options searchParams) =
  parseColumnVisibility
    (searchParams !! QueryKeys.columnVisibility (getQueryKeys options)) columnDefinitions.
Proof. reflexivity. Qed.

(** What [setColumnVisibility] pushes: the decoded list with the key
    appended, or with the key filtered out, joined by commas. *)
Lemma setColumnVisibility_pushed (tableState : TableState V)
    (options : option TableOptions) (searchParams : RawQueryMap)
    (columnKey : string) (isVisible : bool) :
  let newVisibleColumns :=
    if isVisible then columnVisibility tableState ++ [columnKey]
    else List.filter (fun col => negb (bool_decide (col = columnKey)))
           (columnVisibility tableState) in
  setColumnVisibility tableState options searchParams columnKey isVisible =
    match newVisibleColumns with
    | [] => Returned
    | _ => Pushed (<[QueryKeys.columnVisibility (getQueryKeys options) :=
                       Js.join "," newVisibleColumns]> searchParams)
    end.
Proof.
  cbn zeta. unfold setColumnVisibility.
  destruct isVisible.
  - destruct (columnVisibility tableState ++ [columnKey]) eqn:E; reflexivity.
  - destruct (List.filter _ (columnVisibility tableState)); reflexivity.
Qed.

End Visibility.

(** ** The table of parseTableState.test.ts *)

Module TestTable.

(** Filter conditions of the test table: a string for [name], a number
    for [age]. *)
Inductive Condition : Type :=
| CString (s : string)
| CNumber (n : Js.Number).

Definition Number_toString (n : Js.Number) : string :=
  match n with
  | Js.NaN => "NaN"
  | Js.Int z => pretty z
  end.

Definition Condition_toString (c : Condition) : string :=
  match c with
  | CString s => s
  | CNumber n => Number_toString n
  end.

Definition nameFilter : ColumnFilterDefinition Condition :=
  {| initial := None;
     decodeFromUrl := fun value => Js.Ret (Some (CString value));
     encodeForUrl := fun value => Js.Ret (Condition_toString value) |}.

Definition ageFilter : ColumnFilterDefinition Condition :=
  {| initial := None;
     decodeFromUrl := fun value => Js.Ret (Some (CNumber (Js.parseInt value)));
     encodeForUrl := fun value => Js.Ret (Condition_toString value) |}.

Definition idColumn : ColumnDefinition Condition :=
  {| key := "id"; sortable := true; initialVisibility := true; filter := None |}.

Definition nameColumn : ColumnDefinition Condition :=
  {| key := "name"; sortable := true; initialVisibility := true;
     filter := Some nameFilter |}.

Definition ageColumn : ColumnDefinition Condition :=
  {| key := "age"; sortable := false; initialVisibility := false;
     filter := Some ageFilter |}.

Definition columnDefinitions : list (ColumnDefinition Condition) :=
  [idColumn; nameColumn; ageColumn].

Definition queryKeys : QueryKeys.t := getQueryKeys None.

Example default_keys :
  queryKeys =
  {| QueryKeys.keywordSearch := "table_keyword";
     QueryKeys.sortBy := "table_sort_by";
     QueryKeys.sortOrder := "table_sort_order";
     QueryKeys.columnVisibility := "table_columns";
     QueryKeys.page := "table_page";
     QueryKeys.filterPrefix := "table_filter_" |}.
Proof. reflexivity. Qed.

Example custom_keys :
  getQueryKeys (Some {| queryParamPrefix := Some "custom" |}) =
  {| QueryKeys.keywordSearch := "custom_keyword";
     QueryKeys.sortBy := "custom_sort_by";
     QueryKeys.sortOrder := "custom_sort_order";
     QueryKeys.columnVisibility := "custom_columns";
     QueryKeys.page := "custom_page";
     QueryKeys.filterPrefix := "custom_filter_" |}.
Proof. reflexivity. Qed.

Example empty_params :
  parseTableState ∅ queryKeys columnDefinitions =
  {| keywordSearch := None;
     sort := {| Sort.sortBy := None; Sort.sortOrder := None |};
     columnVisibility := ["id"; "name"];
     pagination := Js.Int 1;
     filterState := ∅ |}.
Proof. reflexivity. Qed.

Example invalid_sort_column :
  sort (parseTableState {[ "table_sort_by" := "invalid_column"; "table_sort_order" := "asc" ]}
          queryKeys columnDefinitions)
  = {| Sort.sortBy := None; Sort.sortOrder := Some asc |}.
Proof. reflexivity. Qed.

Example invalid_sort_order :
  sort (parseTableState {[ "table_sort_by" := "id"; "table_sort_order" := "invalid_order" ]}
          queryKeys columnDefinitions)
  = {| Sort.sortBy := Some "id"; Sort.sortOrder := None |}.
Proof. reflexivity. Qed.

Example visible_id_age :
  columnVisibility (parseTableState {[ "table_columns" := "id,age" ]}
                      queryKeys columnDefinitions) = ["id"; "age"].
Proof. reflexivity. Qed.

Example visible_drops_unknown :
  columnVisibility (parseTableState {[ "table_columns" := "id,invalid_column,name" ]}
                      queryKeys columnDefinitions) = ["id"; "name"].
Proof. reflexivity. Qed.

Example page_5 :
  pagination (parseTableState {[ "table_page" := "5" ]} queryKeys columnDefinitions)
  = Js.Int 5.
Proof. reflexivity. Qed.

Example page_invalid :
  pagination (parseTableState {[ "table_page" := "invalid_page" ]} queryKeys columnDefinitions)
  = Js.Int 1.
Proof. reflexivity. Qed.

Example filters_parsed :
  filterState (parseTableState {[ "table_filter_name" := "yamada"; "table_filter_age" := "30" ]}
                 queryKeys columnDefinitions)
  = {[ "name" := CString "yamada"; "age" := CNumber (Js.Int 30) ]}.
Proof. by vm_compute. Qed.

Example combined_params :
  parseTableState
    {[ "table_keyword" := "kw"; "table_sort_by" := "name"; "table_sort_order" := "asc";
       "table_columns" := "id,name,age"; "table_page" := "3";
       "table_filter_name" := "tanaka" ]}
    queryKeys columnDefinitions =
  {| keywordSearch := Some "kw";
     sort := {| Sort.sortBy := Some "name"; Sort.sortOrder := Some asc |};
     columnVisibility := ["id"; "name"; "age"];
     pagination := Js.Int 3;
     filterState := {[ "name" := CString "tanaka" ]} |}.
Proof. by vm_compute. Qed.

End TestTable.

(** ** The older createTable.tsx *)

Module Legacy.

Record ColumnVisibilityDefinition : Type := {
  initialVisibility : bool;
}.

(** [ColumnDefinition] without its filter and render hooks, which the
    functions below do not read. *)
Record ColumnDefinition : Type := {
  key : string;
  sortable : bool;
  visibility : ColumnVisibilityDefinition;
}.

Record TablePaginationDefinition : Type := {
  parPage : Z;
}.

(** [TableDefinition] without its storage key and keyword search. *)
Record TableDefinition : Type := {
  pagination : option TablePaginationDefinition;
  columns : list ColumnDefinition;
}.

Definition queryKeys_columnVisibility : string := "columns".
Definition queryKeys_page : string := "page".

(** [None] is [undefined]: the table has no pagination. *)
Definition getPageFromQueryString (queryParams : RawQueryMap)
    (tableDefinition : TableDefinition) : option Js.Number :=
  match pagination tableDefinition with
  | None => None
  | Some _ =>
      let pageFromQuery := default "" (queryParams !! queryKeys_page) in
      Some (if Js.test_positive_decimal pageFromQuery
            then Js.Number_of_decimal pageFromQuery
            else Js.Int 1)
  end.

Definition getVisibleColumnsFromQueryString (queryParams : RawQueryMap)
    (tableDefinition : TableDefinition) : list string :=
  let columnVisibilityQueryParam := queryParams !! queryKeys_columnVisibility in
  let visibleColumns :=
    (fun p => List.filter
       (fun maybeColumnKey =>
          existsb (fun column => bool_decide (maybeColumnKey = key column))
            (columns tableDefinition))
       (Js.split "," p)) <$> columnVisibilityQueryParam in
  match visibleColumns with
  | None | Some [] =>
      map key (List.filter (fun column => initialVisibility (visibility column))
                 (columns tableDefinition))
  | Some visibleColumns => visibleColumns
  end.

(** [new Set(l).has(k)] *)
Definition Set_has (l : list string) (k : string) : bool :=
  existsb (fun x => bool_decide (x = k)) l.

Definition setColumnVisibility (searchParams : RawQueryMap)
    (tableDefinition : TableDefinition) (columnKey : string) (isVisible : bool)
    : Outcome :=
  let visibleColumns := getVisibleColumnsFromQueryString searchParams tableDefinition in
  if isVisible then
    let newVisibleColumns := visibleColumns ++ [columnKey] in
    if forallb (fun column => Set_has newVisibleColumns (key column))
         (columns tableDefinition)
    then Pushed (delete queryKeys_columnVisibility searchParams)
    else
      let newVisibleColumnsString :=
        Js.join "," (List.filter (Set_has newVisibleColumns)
                       (map key (columns tableDefinition))) in
      Pushed (<[queryKeys_columnVisibility := newVisibleColumnsString]> searchParams)
  else
    let newVisibleColumns :=
      List.filter (fun column => negb (bool_decide (column = columnKey))) visibleColumns in
    match newVisibleColumns with
    | [] => Returned
    | _ =>
        let newVisibleColumnsString :=
          Js.join "," (List.filter (Set_has newVisibleColumns)
                         (map key (columns tableDefinition))) in
        Pushed (<[queryKeys_columnVisibility := newVisibleColumnsString]> searchParams)
    end.

End Legacy.

Lemma decimal_value_positive (s : string) :
  Js.test_positive_decimal s = true -> (1 <= decimal_value s)%Z.
Proof.
  destruct s as [|c s]; [done|]. cbn [Js.test_positive_decimal decimal_value].
  intros H. apply andb_prop in H as [H Hs]. apply andb_prop in H as [Hc H0].
  apply negb_true_iff, bool_decide_eq_false in H0.
  pose proof (decimal_value_nonneg s) as Hs0.
  assert (1 <= default 0 (Js.digit_value c))%Z as Hd.
  { revert Hc H0. unfold Js.is_digit, Js.digit_value.
    destruct c as [[] [] [] [] [] [] [] []]; simpl; try discriminate;
      intros _ H0; solve [lia | by destruct H0]. }
  assert (1 <= 10 ^ Z.of_nat (String.length s))%Z by (apply Z.pow_le_mono_r with (b := 0%Z); lia).
  nia.
Qed.

(** The older decoder accepts only [/^[1-9][0-9]*$/], so its page is at
    least 1. *)
Lemma legacy_page_at_least_one (queryParams : RawQueryMap)
    (tableDefinition : Legacy.TableDefinition) (p : Js.Number) :
  Legacy.getPageFromQueryString queryParams tableDefinition = Some p ->
  Js.ge_one p = true.
Proof.
  unfold Legacy.getPageFromQueryString.
  destruct (Legacy.pagination tableDefinition); [|done].
  intros [= <-].
  destruct (Js.test_positive_decimal _) eqn:E; [|done].
  set (s := default "" _) in *.
  unfold Js.Number_of_decimal.
  destruct s as [|c s']; [done|].
  rewrite digits_prefix_all_digits_start.
  - apply ge_one_Int. by apply decimal_value_positive.
  - cbn [Js.test_positive_decimal] in E. cbn [Js.all_digits].
    apply andb_prop in E as [E Hs]. apply andb_prop in E as [Hc _].
    by rewrite Hc, Hs.
Qed.

(** C1.  [parseTableState] guards [parseInt] with the unanchored
    [/[0-9]+/], which lets through every value that contains a digit: the
    page value "0" decodes to 0, "-5" to -5 and "page5" to NaN, and none
    of the three is at least 1.  The older [getPageFromQueryString] tests
    [/^[1-9][0-9]*$/] and decodes each of these values to 1. *)
Theorem pagination_below_one {V : Type} (columnDefinitions : list (ColumnDefinition V))
    (options : option TableOptions) (searchParams : RawQueryMap)
    (tableDefinition : Legacy.TableDefinition) :
  is_Some (Legacy.pagination tableDefinition) ->
  let page := fun s =>
    pagination (useTableState columnDefinitions options
                  (<[QueryKeys.page (getQueryKeys options) := s]> searchParams)) in
  let older := fun s =>
    Legacy.getPageFromQueryString
      (<[Legacy.queryKeys_page := s]> searchParams) tableDefinition in
  (page "0" = Js.Int 0 /\ page "-5" = Js.Int (-5) /\ page "page5" = Js.NaN) /\
  (Js.ge_one (page "0") = false /\ Js.ge_one (page "-5") = false /\
   Js.ge_one (page "page5") = false) /\
  (older "0" = Some (Js.Int 1) /\ older "-5" = Some (Js.Int 1) /\
   older "page5" = Some (Js.Int 1)).
Proof.
  intros [pg Hpg]. cbn zeta.
  unfold useTableState, parseTableState, Legacy.getPageFromQueryString.
  cbn [pagination]. rewrite Hpg, !lookup_insert_eq. by repeat split.
Qed.

Lemma pagination_below_one_witness :
  pagination (useTableState TestTable.columnDefinitions None {[ "table_page" := "0" ]})
    = Js.Int 0 /\
  Legacy.getPageFromQueryString {[ "page" := "0" ]}
    {| Legacy.pagination := Some {| Legacy.parPage := 10 |}; Legacy.columns := [] |}
    = Some (Js.Int 1).
Proof.
  pose proof (pagination_below_one TestTable.columnDefinitions None ∅
                {| Legacy.pagination := Some {| Legacy.parPage := 10 |};
                   Legacy.columns := [] |}
                (ex_intro _ _ eq_refl)) as H.
  split.
  - exact (proj1 (proj1 H)).
  - exact (proj1 (proj2 (proj2 H))).
Defined.

Lemma filter_sublist_bool {A : Type} (f : A -> bool) (l : list A) :
  sublist (List.filter f l) l.
Proof.
  induction l as [|x l IH]; simpl; [constructor|].
  destruct (f x); by constructor.
Qed.

(** The older writer serializes in registry order: the tokens it joins
    form a subsequence of the registry's keys. *)
Lemma legacy_setColumnVisibility_registry_order (searchParams : RawQueryMap)
    (tableDefinition : Legacy.TableDefinition) (columnKey : string) (isVisible : bool)
    (newParams : RawQueryMap) (value : string) :
  Legacy.setColumnVisibility searchParams tableDefinition columnKey isVisible
    = Pushed newParams ->
  newParams !! Legacy.queryKeys_columnVisibility = Some value ->
  exists l, value = Js.join "," l /\
            sublist l (map Legacy.key (Legacy.columns tableDefinition)).
Proof.
  unfold Legacy.setColumnVisibility. intros H Hv.
  destruct isVisible.
  - destruct (forallb _ _).
    + simplify_eq. by rewrite lookup_delete_eq in Hv.
    + simplify_eq. rewrite lookup_insert_eq in Hv. simplify_eq.
      eexists. split; [reflexivity|]. apply filter_sublist_bool.
  - destruct (List.filter _ (Legacy.getVisibleColumnsFromQueryString _ _)) eqn:E;
      [done|].
    simplify_eq. rewrite lookup_insert_eq in Hv. simplify_eq.
    eexists. split; [reflexivity|]. apply filter_sublist_bool.
Qed.

(** ** Claims on column visibility *)

(** The keys of [l], listed in registry order. *)
Definition registry_order {V : Type} (columnDefinitions : list (ColumnDefinition V))
    (l : list string) : list string :=
  List.filter (fun k => bool_decide (k ∈ l)) (map key columnDefinitions).





(** C3: [setColumnVisibility] of [useTableActions] joins the decoded list
    with the new key appended.  With registry [id, name, age] and
    [age] visible, showing [id] pushes [age,id]; registry order of the
    same set is [id,age]. *)
Theorem setColumnVisibility_insertion_order :
  useTable_setColumnVisibility TestTable.columnDefinitions None
    {[ "table_columns" := "age" ]} "id" true
    = Pushed {[ "table_columns" := "age,id" ]} /\
  Js.join "," (registry_order TestTable.columnDefinitions ["age"; "id"]) = "id,age".
Proof. split; reflexivity. Qed.






(** Decoding the columns value splits it on [","], keeps the tokens that
    name a defined column in their given order, and returns the registry's
    default-visible columns when none is kept.  An absent value is decoded
    as the empty string: it gives the defaults provided no column is keyed
    by the empty string. *)
Lemma columnVisibility_decoded {V : Type}
    (columnDefinitions : list (ColumnDefinition V)) (options : option TableOptions)
    (searchParams : RawQueryMap) :
  let param := searchParams !! QueryKeys.columnVisibility (getQueryKeys options) in
  let visible := columnVisibility (useTableState columnDefinitions options searchParams) in
  let kept := List.filter (is_defined columnDefinitions) (Js.split "," (default "" param)) in
  (kept <> [] -> visible = kept) /\
  (kept = [] -> visible = initially_visible columnDefinitions) /\
  (param = None -> is_defined columnDefinitions "" = false ->
   visible = initially_visible columnDefinitions).
Proof.
  cbn zeta. rewrite useTableState_columnVisibility, parseColumnVisibility_cases.
  unfold retained. repeat split.
  - by destruct (List.filter _ _).
  - by intros ->.
  - intros -> Hdef. simpl. by rewrite Hdef.
Qed.

Lemma columnVisibility_decoded_witness :
  columnVisibility (useTableState TestTable.columnDefinitions None
                      {[ "table_columns" := "age,bogus,id" ]}) = ["age"; "id"] /\
  columnVisibility (useTableState TestTable.columnDefinitions None
                      {[ "table_columns" := "bogus" ]}) = ["id"; "name"] /\
  columnVisibility (useTableState TestTable.columnDefinitions None ∅) = ["id"; "name"].
Proof.
  split; [|split].
  - refine (proj1 (columnVisibility_decoded TestTable.columnDefinitions None
                     {[ "table_columns" := "age,bogus,id" ]}) _).
    discriminate.
  - refine (proj1 (proj2 (columnVisibility_decoded TestTable.columnDefinitions None
                            {[ "table_columns" := "bogus" ]})) _).
    reflexivity.
  - refine (proj2 (proj2 (columnVisibility_decoded TestTable.columnDefinitions None ∅))
              _ _); reflexivity.
Defined.

(** C6.  [parseColumnVisibility] splits [columnVisibilityParam ?? ""],
    and the empty string splits into one empty token: when the columns
    value is absent and the registry has a column keyed by the empty
    string, that token is kept and the decoder returns it instead of the
    default-visible columns.  The older [getVisibleColumnsFromQueryString]
    splits with [?.], so an absent value gives the defaults whatever the
    keys are. *)
Theorem columnVisibility_absent_empty_key {V : Type}
    (columnDefinitions : list (ColumnDefinition V)) (options : option TableOptions)
    (searchParams : RawQueryMap) (tableDefinition : Legacy.TableDefinition) :
  is_defined columnDefinitions "" = true ->
  searchParams !! QueryKeys.columnVisibility (getQueryKeys options) = None ->
  searchParams !! Legacy.queryKeys_columnVisibility = None ->
  columnVisibility (useTableState columnDefinitions options searchParams) = [""] /\
  Legacy.getVisibleColumnsFromQueryString searchParams tableDefinition
  = map Legacy.key
      (List.filter (fun column => Legacy.initialVisibility (Legacy.visibility column))
         (Legacy.columns tableDefinition)).
Proof.
  intros Hdef Hhook Holder. split.
  - rewrite useTableState_columnVisibility, Hhook.
    unfold parseColumnVisibility. cbn [default Js.split List.filter].
    by rewrite Hdef.
  - unfold Legacy.getVisibleColumnsFromQueryString. by rewrite Holder.
Qed.

Lemma columnVisibility_absent_empty_key_witness :
  columnVisibility
    (useTableState (V:=unit)
       [ {| key := ""; sortable := false; initialVisibility := false; filter := None |};
         {| key := "id"; sortable := true; initialVisibility := true; filter := None |} ]
       None ∅) = [""] /\
  initially_visible (V:=unit)
    [ {| key := ""; sortable := false; initialVisibility := false; filter := None |};
      {| key := "id"; sortable := true; initialVisibility := true; filter := None |} ]
  = ["id"] /\
  Legacy.getVisibleColumnsFromQueryString ∅
    {| Legacy.pagination := None;
       Legacy.columns :=
         [ {| Legacy.key := ""; Legacy.sortable := false;
              Legacy.visibility := {| Legacy.initialVisibility := false |} |};
           {| Legacy.key := "id"; Legacy.sortable := true;
              Legacy.visibility := {| Legacy.initialVisibility := true |} |} ] |}
  = ["id"].
Proof.
  pose proof (columnVisibility_absent_empty_key (V:=unit)
                [ {| key := ""; sortable := false; initialVisibility := false;
                     filter := None |};
                  {| key := "id"; sortable := true; initialVisibility := true;
                     filter := None |} ]
                None ∅
                {| Legacy.pagination := None;
                   Legacy.columns :=
                     [ {| Legacy.key := ""; Legacy.sortable := false;
                          Legacy.visibility := {| Legacy.initialVisibility := false |} |};
                       {| Legacy.key := "id"; Legacy.sortable := true;
                          Legacy.visibility := {| Legacy.initialVisibility := true |} |} ] |}
                eq_refl eq_refl eq_refl) as [Hhook Holder].
  split; [exact Hhook|]. split; [reflexivity | exact Holder].
Defined.

(** ** Claims on the filter setter and on sorting *)

Section FilterSetter.

Context {V : Type}.
Local Abbreviation Column := (ColumnDefinition V).

Lemma find_filter_none (columnDefinitions : list Column) (columnKey : string) :
  (forall col, col ∈ columnDefinitions -> key col = columnKey -> filter col = None) ->
  List.find (fun col => bool_decide (key col = columnKey)) columnDefinitions ≫= filter
    = None.
Proof.
  intros H. destruct (List.find _ _) as [col|] eqn:E; [|done].
  apply find_some in E as [Hin Hk]. apply bool_decide_eq_true in Hk.
  simpl. apply H; [by apply list_elem_of_In | done].
Qed.

(** C4, amended.  Setting a non-null filter value on a column that has no
    filter definition (or is not defined at all) raises nothing and pushes
    nothing: the call returns silently. *)
Theorem setFilter_unconfigured_is_silent (columnDefinitions : list Column)
    (options : option TableOptions) (searchParams : RawQueryMap)
    (columnKey : string) (filterValue : V) :
  (forall col, col ∈ columnDefinitions -> key col = columnKey -> filter col = None) ->
  useTable_setFilter columnDefinitions options searchParams columnKey (Some filterValue)
    = Returned.
Proof.
  intros H. unfold useTable_setFilter, setFilter.
  by rewrite (find_filter_none _ _ H).
Qed.

End FilterSetter.

Lemma setFilter_unconfigured_is_silent_witness :
  useTable_setFilter TestTable.columnDefinitions None ∅ "id"
    (Some (TestTable.CString "x")) = Returned.
Proof.
  apply setFilter_unconfigured_is_silent.
  intros col Hin Hk.
  repeat (apply elem_of_cons in Hin as [->|Hin]; [done || discriminate Hk|]).
  by apply elem_of_nil in Hin.
Defined.

(** C4, as stated, fails: on the column [id], which has no filter
    definition, the setter does not throw; it returns without pushing. *)
Lemma setFilter_no_throw_counterexample :
  filter <$> List.find (fun col => bool_decide (key col = "id")) TestTable.columnDefinitions
    = Some None /\
  useTable_setFilter TestTable.columnDefinitions None ∅ "id"
    (Some (TestTable.CString "x")) = Returned /\
  useTable_setFilter TestTable.columnDefinitions None ∅ "id"
    (Some (TestTable.CString "x")) <> Threw.
Proof. repeat split. discriminate. Qed.

Section Toggle.

Context {V : Type}.
Local Abbreviation Column := (ColumnDefinition V).

(** The decoded sort state is a function of the two sort keys. *)
Definition decode_sort (columnDefinitions : list Column)
    (keys : option string * option string) : Sort.t :=
  {| Sort.sortBy :=
       if Js.truthy keys.1 && is_sortable columnDefinitions (default "" keys.1)
       then keys.1 else None;
     Sort.sortOrder :=
       if bool_decide (keys.2 = Some "asc") then Some asc
       else if bool_decide (keys.2 = Some "desc") then Some desc
       else None |}.

Lemma useTableState_sort (columnDefinitions : list Column)
    (options : option TableOptions) (searchParams : RawQueryMap) :
  sort (useTableState columnDefinitions options searchParams)
  = decode_sort columnDefinitions (sort_keys options searchParams).
Proof. reflexivity. Qed.

Lemma decode_sort_written (columnDefinitions : list Column) (c : string) (o : SortOrder) :
  is_sortable columnDefinitions c = true -> c <> "" ->
  decode_sort columnDefinitions (Some c, Some (SortOrder_to_string o))
  = {| Sort.sortBy := Some c; Sort.sortOrder := Some o |}.
Proof.
  intros Hs Hc. unfold decode_sort. cbn [fst snd default]. unfold id. rewrite Hs.
  destruct c as [|a c]; [done|]. by destruct o.
Qed.

(** X25.  For a sortable column [c] whose key is not the empty string,
    [toggleSort c] pushes a map whose decoded sort state is:
    ascending on [c] from the unsorted state, descending on [c] from
    ascending on [c], unsorted (both keys deleted) from descending on [c],
    and ascending on [c] from a state sorted on another column. *)
Theorem toggleSort_cycle (columnDefinitions : list Column)
    (options : option TableOptions) (searchParams : RawQueryMap) (c : string) :
  is_sortable columnDefinitions c = true -> c <> "" ->
  let state := sort (useTableState columnDefinitions options searchParams) in
  exists newParams,
    useTable_toggleSort columnDefinitions options searchParams c = Pushed newParams /\
    let state' := sort (useTableState columnDefinitions options newParams) in
    (state = {| Sort.sortBy := None; Sort.sortOrder := None |} ->
     state' = {| Sort.sortBy := Some c; Sort.sortOrder := Some asc |}) /\
    (state = {| Sort.sortBy := Some c; Sort.sortOrder := Some asc |} ->
     state' = {| Sort.sortBy := Some c; Sort.sortOrder := Some desc |}) /\
    (state = {| Sort.sortBy := Some c; Sort.sortOrder := Some desc |} ->
     state' = {| Sort.sortBy := None; Sort.sortOrder := None |} /\
     sort_keys options newParams = (None, None)) /\
    (forall d o, state = {| Sort.sortBy := Some d; Sort.sortOrder := o |} -> d <> c ->
     state' = {| Sort.sortBy := Some c; Sort.sortOrder := Some asc |}).
Proof.
  intros Hs Hc. cbn zeta. unfold useTable_toggleSort, toggleSort.
  set (st := sort (useTableState columnDefinitions options searchParams)).
  destruct (setSort_pushes options searchParams (Some c) (Some asc)) as (ma & Ha & Hka & _).
  destruct (setSort_pushes options searchParams (Some c) (Some desc)) as (md & Hd & Hkd & _).
  destruct (setSort_pushes options searchParams None None) as (mn & Hn & Hkn & _).
  assert (Da : sort (useTableState columnDefinitions options ma)
               = {| Sort.sortBy := Some c; Sort.sortOrder := Some asc |}).
  { rewrite useTableState_sort, Hka. by apply (decode_sort_written _ c asc). }
  assert (Dd : sort (useTableState columnDefinitions options md)
               = {| Sort.sortBy := Some c; Sort.sortOrder := Some desc |}).
  { rewrite useTableState_sort, Hkd. by apply (decode_sort_written _ c desc). }
  assert (Dn : sort (useTableState columnDefinitions options mn)
               = {| Sort.sortBy := None; Sort.sortOrder := None |}).
  { by rewrite useTableState_sort, Hkn. }
  case_bool_decide as Hby; [case_bool_decide as Hord|].
  - exists md. split; [done|]. rewrite Dd.
    split; [|split; [|split]].
    + intros E. rewrite E in Hby. discriminate.
    + done.
    + intros E. rewrite E in Hord. discriminate.
    + intros d o E Hdc. rewrite E in Hby. simpl in Hby. congruence.
  - exists mn. split; [done|]. rewrite Dn.
    split; [|split; [|split]].
    + intros E. rewrite E in Hby. discriminate.
    + intros E. rewrite E in Hord. by destruct Hord.
    + done.
    + intros d o E Hdc. rewrite E in Hby. simpl in Hby. congruence.
  - exists ma. split; [done|]. rewrite Da.
    split; [|split; [|split]].
    + done.
    + intros E. rewrite E in Hby. by destruct Hby.
    + intros E. rewrite E in Hby. by destruct Hby.
    + done.
Qed.

End Toggle.

Lemma toggleSort_cycle_witness :
  exists newParams,
    useTable_toggleSort TestTable.columnDefinitions None ∅ "id" = Pushed newParams /\
    sort (useTableState TestTable.columnDefinitions None newParams)
    = {| Sort.sortBy := Some "id"; Sort.sortOrder := Some asc |}.
Proof.
  destruct (toggleSort_cycle TestTable.columnDefinitions None ∅ "id")
    as (newParams & Hpush & Hasc & _).
  - reflexivity.
  - discriminate.
  - exists newParams. split; [exact Hpush|]. apply Hasc. reflexivity.
Defined.

Example toggle_name_three_times :
  useTable_toggleSort TestTable.columnDefinitions None ∅ "name"
    = Pushed {[ "table_sort_by" := "name"; "table_sort_order" := "asc" ]} /\
  useTable_toggleSort TestTable.columnDefinitions None
    {[ "table_sort_by" := "name"; "table_sort_order" := "asc" ]} "name"
    = Pushed {[ "table_sort_by" := "name"; "table_sort_order" := "desc" ]} /\
  useTable_toggleSort TestTable.columnDefinitions None
    {[ "table_sort_by" := "name"; "table_sort_order" := "desc" ]} "name"
    = Pushed ∅.
Proof. repeat split; by vm_compute. Qed.

(** ** Claims on the decoded filters *)

Section Filters.

Context {V : Type}.
Local Abbreviation Column := (ColumnDefinition V).

Variable searchParams : RawQueryMap.
Variable queryKeys : QueryKeys.t.

(** What one column contributes: its decoded condition, if its value is
    present and decodes to a non-null condition, unless the column is
    keyed [__proto__], a key the assignment cannot create. *)
Definition column_filter (col : Column) : option V :=
  match filter col with
  | Some f =>
      match searchParams !! (QueryKeys.filterPrefix queryKeys +:+ key col) with
      | Some encoded =>
          match decodeFromUrl f encoded with
          | Js.Ret (Some v) =>
              if bool_decide (key col = "__proto__") then None else Some v
          | _ => None
          end
      | None => None
      end
  | None => None
  end.

Lemma parseFilters_step_spec (acc : gmap string V) (col : Column) :
  parseFilters_step searchParams queryKeys acc col =
    match column_filter col with
    | Some v => <[key col := v]> acc
    | None => acc
    end.
Proof.
  unfold parseFilters_step, column_filter, Js.Object_set.
  destruct (filter col) as [f|]; [|done].
  destruct (searchParams !! _) as [s|]; [|done].
  destruct (decodeFromUrl f s) as [[v|]|]; [|done..].
  by case_bool_decide.
Qed.

Lemma fold_step_other (l : list Column) (acc : gmap string V) (k : string) :
  (forall col, col ∈ l -> key col <> k) ->
  fold_left (parseFilters_step searchParams queryKeys) l acc !! k = acc !! k.
Proof.
  revert acc. induction l as [|x l IH]; intros acc H; [done|].
  cbn [fold_left]. rewrite IH.
  - rewrite parseFilters_step_spec. destruct (column_filter x); [|done].
    apply lookup_insert_ne. apply H. by left.
  - intros col Hin. apply H. by right.
Qed.

Lemma fold_step_unique (l : list Column) (acc : gmap string V) (col : Column) :
  NoDup (map key l) -> col ∈ l -> acc !! key col = None ->
  fold_left (parseFilters_step searchParams queryKeys) l acc !! key col
  = column_filter col.
Proof.
  revert acc. induction l as [|x l IH]; intros acc Hnd Hin Hacc.
  - by apply elem_of_nil in Hin.
  - cbn [map] in Hnd. apply NoDup_cons in Hnd as [Hx Hnd].
    cbn [fold_left]. apply elem_of_cons in Hin as [->|Hin].
    + rewrite fold_step_other.
      * rewrite parseFilters_step_spec. destruct (column_filter x).
        -- apply lookup_insert_eq.
        -- done.
      * intros c Hc Hk. apply Hx. rewrite <- Hk. by apply list_elem_of_fmap_2.
    + apply IH; [done..|].
      rewrite parseFilters_step_spec. destruct (column_filter x); [|done].
      rewrite lookup_insert_ne; [done|].
      intros Hk. apply Hx. rewrite Hk. by apply list_elem_of_fmap_2.
Qed.

Lemma fold_step_source (l : list Column) (acc : gmap string V) (k : string) (v : V) :
  fold_left (parseFilters_step searchParams queryKeys) l acc !! k = Some v ->
  acc !! k = Some v \/
  exists col, col ∈ l /\ key col = k /\ column_filter col = Some v.
Proof.
  revert acc. induction l as [|x l IH]; intros acc H; [by left|].
  cbn [fold_left] in H. apply IH in H as [H|(col & Hin & Hk & Hv)].
  - rewrite parseFilters_step_spec in H.
    destruct (column_filter x) as [w|] eqn:E; [|by left].
    destruct (decide (key x = k)) as [Hk|Hk].
    + subst k. rewrite lookup_insert_eq in H. simplify_eq.
      right. exists x. split; [by left|done].
    + rewrite lookup_insert_ne in H by done. by left.
  - right. exists col. split; [by right|done].
Qed.

Lemma fold_step_keeps (l : list Column) (acc : gmap string V) (k : string) :
  is_Some (acc !! k) ->
  is_Some (fold_left (parseFilters_step searchParams queryKeys) l acc !! k).
Proof.
  revert acc. induction l as [|x l IH]; intros acc H; [done|].
  cbn [fold_left]. apply IH. rewrite parseFilters_step_spec.
  destruct (column_filter x); [|done].
  destruct (decide (key x = k)) as [->|Hk].
  - rewrite lookup_insert_eq. eauto.
  - by rewrite lookup_insert_ne.
Qed.

Lemma fold_step_present (l : list Column) (acc : gmap string V) (col : Column) (v : V) :
  col ∈ l -> column_filter col = Some v ->
  is_Some (fold_left (parseFilters_step searchParams queryKeys) l acc !! key col).
Proof.
  revert acc. induction l as [|x l IH]; intros acc Hin Hv.
  - by apply elem_of_nil in Hin.
  - cbn [fold_left]. apply elem_of_cons in Hin as [->|Hin]; [|by apply IH].
    apply fold_step_keeps. rewrite parseFilters_step_spec, Hv, lookup_insert_eq. eauto.
Qed.

Lemma parseFilters_skip (l1 l2 : list Column) (col : Column) :
  column_filter col = None ->
  parseFilters searchParams queryKeys (l1 ++ col :: l2)
  = parseFilters searchParams queryKeys (l1 ++ l2).
Proof.
  intros H. unfold parseFilters. rewrite !fold_left_app. cbn [fold_left].
  by rewrite parseFilters_step_spec, H.
Qed.

End Filters.

(** Whatever the registry and the query map, the decoded mapping has no
    entry under [__proto__]. *)
Lemma parseFilters_no_proto {V : Type}
    (columnDefinitions : list (ColumnDefinition V)) (queryKeys : QueryKeys.t)
    (searchParams : RawQueryMap) :
  parseFilters searchParams queryKeys columnDefinitions !! "__proto__" = None.
Proof.
  destruct (parseFilters _ _ _ !! "__proto__") as [v|] eqn:E; [|done].
  unfold parseFilters in E. apply fold_step_source in E as [E|(col & _ & Hk & Hv)].
  - by rewrite lookup_empty in E.
  - unfold column_filter in Hv. rewrite bool_decide_eq_true_2 in Hv by done.
    destruct (filter col); [|done]. destruct (searchParams !! _); [|done].
    by destruct (decodeFromUrl _ _) as [[?|]|].
Qed.

(** X26.  In a registry with unique keys, a column with a filter
    definition whose key is not [__proto__] has an entry in the decoded
    filter mapping exactly when its namespaced value is present and decodes
    to a non-null condition, and the entry is that condition; an absent
    value, a [null] result and a decode exception all leave the key out.
    In any registry the key of such a column whose value decodes to a
    non-null condition is in the mapping, every entry comes from a column
    whose value decodes to it, and a column whose decode throws changes
    nothing: the mapping is the one decoded without that column. *)
Theorem parseFilters_per_column {V : Type}
    (columnDefinitions : list (ColumnDefinition V)) (options : option TableOptions)
    (searchParams : RawQueryMap) :
  let filterKey := fun k => QueryKeys.filterPrefix (getQueryKeys options) +:+ k in
  let decoded := filterState (useTableState columnDefinitions options searchParams) in
  (NoDup (map key columnDefinitions) ->
   forall col f, col ∈ columnDefinitions -> filter col = Some f ->
     (forall s v, key col <> "__proto__" ->
                  searchParams !! filterKey (key col) = Some s ->
                  decodeFromUrl f s = Js.Ret (Some v) -> decoded !! key col = Some v) /\
     (searchParams !! filterKey (key col) = None -> decoded !! key col = None) /\
     (forall s, searchParams !! filterKey (key col) = Some s ->
                decodeFromUrl f s = Js.Ret None -> decoded !! key col = None) /\
     (forall s, searchParams !! filterKey (key col) = Some s ->
                decodeFromUrl f s = Js.Throw -> decoded !! key col = None)) /\
  (forall col f s v, col ∈ columnDefinitions -> filter col = Some f ->
     key col <> "__proto__" ->
     searchParams !! filterKey (key col) = Some s ->
     decodeFromUrl f s = Js.Ret (Some v) -> is_Some (decoded !! key col)) /\
  (forall k v, decoded !! k = Some v ->
     exists col f s, col ∈ columnDefinitions /\ key col = k /\ filter col = Some f /\
                     searchParams !! filterKey k = Some s /\
                     decodeFromUrl f s = Js.Ret (Some v)) /\
  (forall l1 col l2 f s,
     columnDefinitions = l1 ++ col :: l2 -> filter col = Some f ->
     searchParams !! filterKey (key col) = Some s -> decodeFromUrl f s = Js.Throw ->
     decoded = filterState (useTableState (l1 ++ l2) options searchParams)).
Proof.
  cbn zeta. unfold useTableState, parseTableState. cbn [filterState].
  split; [|split; [|split]].
  - intros Hnd col f Hin Hf.
    assert (parseFilters searchParams (getQueryKeys options) columnDefinitions !! key col
            = column_filter searchParams (getQueryKeys options) col) as ->.
    { unfold parseFilters. by apply fold_step_unique. }
    unfold column_filter. rewrite Hf.
    split; [|split; [|split]].
    + intros s v Hk -> ->. by rewrite bool_decide_eq_false_2.
    + by intros ->.
    + by intros s -> ->.
    + by intros s -> ->.
  - intros col f s v Hin Hf Hk Hs Hd. unfold parseFilters.
    apply fold_step_present with (v := v); [done|].
    unfold column_filter. by rewrite Hf, Hs, Hd, bool_decide_eq_false_2.
  - intros k v H. unfold parseFilters in H.
    apply fold_step_source in H as [H|(col & Hin & Hk & Hv)].
    + by rewrite lookup_empty in H.
    + unfold column_filter in Hv.
      destruct (filter col) as [f|] eqn:Hf; [|done].
      destruct (searchParams !! _) as [s|] eqn:Hs; [|done].
      destruct (decodeFromUrl f s) as [[w|]|] eqn:Hd; [|done..].
      case_bool_decide; [done|]. injection Hv as ->. subst k.
      by exists col, f, s.
  - intros l1 col l2 f s -> Hf Hs Hd.
    apply parseFilters_skip. unfold column_filter. by rewrite Hf, Hs, Hd.
Qed.

Lemma parseFilters_per_column_witness :
  filterState (useTableState TestTable.columnDefinitions None
                 {[ "table_filter_name" := "yamada" ]}) !! "name"
    = Some (TestTable.CString "yamada") /\
  filterState (useTableState TestTable.columnDefinitions None
                 {[ "table_filter_name" := "yamada" ]}) !! "age" = None.
Proof.
  assert (Hnd : NoDup (map key TestTable.columnDefinitions)).
  { apply (bool_decide_unpack _). by vm_compute. }
  pose proof (proj1 (parseFilters_per_column TestTable.columnDefinitions None
                       {[ "table_filter_name" := "yamada" ]}) Hnd) as H.
  split.
  - refine (proj1 (H TestTable.nameColumn TestTable.nameFilter _ eq_refl)
              "yamada" _ _ eq_refl eq_refl).
    + apply list_elem_of_In. right. by left.
    + discriminate.
  - refine (proj1 (proj2 (H TestTable.ageColumn TestTable.ageFilter _ eq_refl)) eq_refl).
    apply list_elem_of_In. right. right. by left.
Defined.

(** C7.  [parseFilters] stores a decoded condition with
    [filter[colKey] = filterValue] on an object created by [{}], and that
    assignment creates no entry when the column is keyed [__proto__]: the
    decoded mapping never has that key, whatever the registry and the
    query map.  With the [name] filter of the test table put on a column
    keyed [__proto__], a present value that decodes to a non-null
    condition is left out, while the [age] column beside it is decoded. *)
Theorem parseFilters_proto_key_lost :
  (forall (V : Type) (columnDefinitions : list (ColumnDefinition V))
          (options : option TableOptions) (searchParams : RawQueryMap),
     filterState (useTableState columnDefinitions options searchParams) !! "__proto__"
     = None) /\
  decodeFromUrl TestTable.nameFilter "yamada"
    = Js.Ret (Some (TestTable.CString "yamada")) /\
  filterState
    (useTableState
       [ {| key := "__proto__"; filter := Some TestTable.nameFilter;
            sortable := true; initialVisibility := true |};
         TestTable.ageColumn ]
       None
       {[ "table_filter___proto__" := "yamada"; "table_filter_age" := "30" ]})
  = {[ "age" := TestTable.CNumber (Js.Int 30) ]}.
Proof.
  split; [|split].
  - intros V columnDefinitions options searchParams.
    unfold useTableState, parseTableState. cbn [filterState].
    apply parseFilters_no_proto.
  - reflexivity.
  - by vm_compute.
Qed.

(** ** filterUtils.ts *)

Module FilterUtils.

Section Codec.

(** JavaScript values, and the three library calls the codec is built
    from.  [v_parse] is [v.parse(schema, _)] for the schema handed to
    [createFilterEncoderDecoder]: it returns the validated output or
    throws.  [JSON_parse] throws on text that is not JSON. *)
Context {J : Type}.
Variable null : J.
Variable v_parse : J -> Js.Completion J.
Variable JSON_stringify : J -> Js.Completion string.
Variable JSON_parse : string -> Js.Completion J.

Definition encodeForUrl (value : J) : Js.Completion string :=
  Js.bind (v_parse value) (fun validated => JSON_stringify validated).

Definition decodeFromUrl (encoded : string) : Js.Completion J :=
  Js.try_catch
    (Js.bind (JSON_parse encoded) (fun parsed => v_parse parsed))
    (Js.Ret null).

(** [defineTableColumnFilterWithSchema]: the codec packaged as a filter
    definition; a decoded [null] is "no condition". *)
Definition defineTableColumnFilterWithSchema (is_null : J -> bool)
    (initial : option J) : ColumnFilterDefinition J :=
  @Build_ColumnFilterDefinition J initial encodeForUrl
    (fun encoded =>
       Js.bind (decodeFromUrl encoded)
         (fun v => Js.Ret (if is_null v then None else Some v))).

Lemma decodeFromUrl_returns (encoded : string) :
  exists v, decodeFromUrl encoded = Js.Ret v.
Proof.
  unfold decodeFromUrl, Js.try_catch.
  destruct (Js.bind _ _) as [v|]; eauto.
Qed.

(** C8, amended.  For a value that the schema accepts and returns
    unchanged and that JSON text represents faithfully (stringifying and
    parsing gives the value back), decoding the encoded value returns it.
    For every codec, decoding never throws; it returns [null] when the
    text is not JSON and when the parsed value fails validation. *)
Theorem codec_round_trip :
  (forall (x : J) (text : string),
     v_parse x = Js.Ret x ->
     JSON_stringify x = Js.Ret text ->
     JSON_parse text = Js.Ret x ->
     encodeForUrl x = Js.Ret text /\ decodeFromUrl text = Js.Ret x) /\
  (forall encoded, exists v, decodeFromUrl encoded = Js.Ret v) /\
  (forall encoded, JSON_parse encoded = Js.Throw ->
                   decodeFromUrl encoded = Js.Ret null) /\
  (forall encoded parsed, JSON_parse encoded = Js.Ret parsed ->
                          v_parse parsed = Js.Throw ->
                          decodeFromUrl encoded = Js.Ret null).
Proof.
  unfold encodeForUrl, decodeFromUrl.
  split; [|split; [|split]].
  - intros x text Hv Hs Hp. split.
    + by rewrite Hv.
    + by rewrite Hp; simpl; rewrite Hv.
  - apply decodeFromUrl_returns.
  - by intros encoded ->.
  - intros encoded parsed -> Hthrow. simpl. by rewrite Hthrow.
Qed.

End Codec.

End FilterUtils.

(** A codec instance: valibot's [number()] schema over a scalar fragment
    of JavaScript values ([null], booleans, the integers below 10^21 in
    magnitude and the non-finite Numbers) and the JSON texts of those
    values.  It serves as a concrete input for the statements on codecs,
    which are proved for every schema and for [JSON] as parameters. *)
Module NumberCodec.

Inductive Num : Type :=
| Finite (z : Z)
| PosInfinity
| NegInfinity
| NotANumber.

Inductive Value : Type :=
| VNull
| VBool (b : bool)
| VNumber (n : Num).

(** [v.parse(v.number(), value)]: a Number other than NaN is returned as
    it is, anything else throws. *)
Definition v_parse (value : Value) : Js.Completion Value :=
  match value with
  | VNumber NotANumber => Js.Throw
  | VNumber n => Js.Ret (VNumber n)
  | _ => Js.Throw
  end.

(** [JSON.stringify]: non-finite Numbers are written as [null]. *)
Definition JSON_stringify (value : Value) : Js.Completion string :=
  Js.Ret
    match value with
    | VNull => "null"
    | VBool true => "true"
    | VBool false => "false"
    | VNumber (Finite z) => pretty z
    | VNumber _ => "null"
    end.

Definition integer_literal (s : string) : bool :=
  bool_decide (s = "0") || Js.test_positive_decimal s.

(** [JSON.parse] on the texts [JSON.stringify] writes for this fragment,
    the literals and the integer numerals.  Any other text is reported as
    a syntax error, as it is for text that is not JSON (JSON text outside
    the fragment, such as fractions, strings, arrays and objects, is not
    covered). *)
Definition JSON_parse (text : string) : Js.Completion Value :=
  if bool_decide (text = "null") then Js.Ret VNull
  else if bool_decide (text = "true") then Js.Ret (VBool true)
  else if bool_decide (text = "false") then Js.Ret (VBool false)
  else match text with
       | String "-" digits =>
           if integer_literal digits
           then Js.Ret (VNumber (Finite (- decimal_value digits)))
           else Js.Throw
       | _ =>
           if integer_literal text
           then Js.Ret (VNumber (Finite (decimal_value text)))
           else Js.Throw
       end.

(** [v.parse(v.pipe(v.number(), v.transform((n) => Math.max(n, 0))), value)]:
    the same values are accepted, and a negative one is returned raised
    to 0. *)
Definition v_parse_at_least_zero (value : Value) : Js.Completion Value :=
  match value with
  | VNumber NotANumber => Js.Throw
  | VNumber (Finite z) => Js.Ret (VNumber (Finite (Z.max z 0)))
  | VNumber NegInfinity => Js.Ret (VNumber (Finite 0))
  | VNumber PosInfinity => Js.Ret (VNumber PosInfinity)
  | _ => Js.Throw
  end.

Definition encodeForUrl : Value -> Js.Completion string :=
  FilterUtils.encodeForUrl v_parse JSON_stringify.

Definition decodeFromUrl : string -> Js.Completion Value :=
  FilterUtils.decodeFromUrl VNull v_parse JSON_parse.

Example encode_20 : encodeForUrl (VNumber (Finite 20)) = Js.Ret "20".
Proof. reflexivity. Qed.
Example decode_20 : decodeFromUrl "20" = Js.Ret (VNumber (Finite 20)).
Proof. reflexivity. Qed.
Example decode_invalid_json : decodeFromUrl "invalid-json" = Js.Ret VNull.
Proof. reflexivity. Qed.
Example decode_schema_mismatch : decodeFromUrl "true" = Js.Ret VNull.
Proof. reflexivity. Qed.
Example encode_invalid_throws : encodeForUrl (VBool true) = Js.Throw.
Proof. reflexivity. Qed.

End NumberCodec.

Lemma codec_round_trip_witness :
  NumberCodec.encodeForUrl (NumberCodec.VNumber (NumberCodec.Finite 20)) = Js.Ret "20" /\
  NumberCodec.decodeFromUrl "20" = Js.Ret (NumberCodec.VNumber (NumberCodec.Finite 20)) /\
  NumberCodec.decodeFromUrl "invalid-json" = Js.Ret NumberCodec.VNull /\
  NumberCodec.decodeFromUrl "true" = Js.Ret NumberCodec.VNull.
Proof.
  pose proof (FilterUtils.codec_round_trip NumberCodec.VNull NumberCodec.v_parse
                NumberCodec.JSON_stringify NumberCodec.JSON_parse)
    as (Hround & _ & Hjson & Hschema).
  destruct (Hround (NumberCodec.VNumber (NumberCodec.Finite 20)) "20"
              eq_refl eq_refl eq_refl) as [He Hd].
  split; [exact He|]. split; [exact Hd|]. split.
  - exact (Hjson "invalid-json" eq_refl).
  - exact (Hschema "true" (NumberCodec.VBool true) eq_refl eq_refl).
Defined.

(** C8, as stated, fails in two ways.  [number()] accepts [Infinity],
    which is written as the JSON text [null]; that text parses to [null],
    which the schema rejects, so decoding the encoded value returns
    [null].  And a schema may accept a value and return another one: with
    a transform that raises negative numbers to 0, the value -5 is
    accepted, encoded as [0] and decoded as 0. *)
Lemma codec_round_trip_counterexample :
  (NumberCodec.v_parse (NumberCodec.VNumber NumberCodec.PosInfinity)
     = Js.Ret (NumberCodec.VNumber NumberCodec.PosInfinity) /\
   NumberCodec.encodeForUrl (NumberCodec.VNumber NumberCodec.PosInfinity)
     = Js.Ret "null" /\
   NumberCodec.decodeFromUrl "null" = Js.Ret NumberCodec.VNull /\
   NumberCodec.VNull <> NumberCodec.VNumber NumberCodec.PosInfinity) /\
  (NumberCodec.v_parse_at_least_zero (NumberCodec.VNumber (NumberCodec.Finite (-5)))
     = Js.Ret (NumberCodec.VNumber (NumberCodec.Finite 0)) /\
   FilterUtils.encodeForUrl NumberCodec.v_parse_at_least_zero NumberCodec.JSON_stringify
     (NumberCodec.VNumber (NumberCodec.Finite (-5))) = Js.Ret "0" /\
   FilterUtils.decodeFromUrl NumberCodec.VNull NumberCodec.v_parse_at_least_zero
     NumberCodec.JSON_parse "0" = Js.Ret (NumberCodec.VNumber (NumberCodec.Finite 0)) /\
   NumberCodec.VNumber (NumberCodec.Finite 0)
     <> NumberCodec.VNumber (NumberCodec.Finite (-5))).
Proof. repeat split; discriminate. Qed.

(** * Further properties of the codec *)

(** ** Query keys *)

Section KeyFacts.

Lemma string_app_assoc (a b c : string) : (a +:+ b) +:+ c = a +:+ (b +:+ c).
Proof.
  induction a as [|x a IH]; [done|].
  by rewrite !string_app_cons, IH.
Qed.

Lemma string_app_nil_r (a : string) : a +:+ "" = a.
Proof. induction a as [|x a IH]; [done|]. by rewrite string_app_cons, IH. Qed.

Lemma string_app_length (a b : string) :
  String.length (a +:+ b) = (String.length a + String.length b)%nat.
Proof.
  induction a as [|x a IH]; [done|].
  rewrite string_app_cons. simpl. by rewrite IH.
Qed.

Lemma string_app_inv_tail (a b s : string) : a +:+ s = b +:+ s -> a = b.
Proof.
  revert b. induction a as [|x a IH]; intros [|y b] H.
  - done.
  - apply (f_equal String.length) in H.
    rewrite string_app_nil_l, string_app_length in H. simpl in H. lia.
  - apply (f_equal String.length) in H.
    rewrite string_app_nil_l, string_app_length in H. simpl in H. lia.
  - rewrite !string_app_cons in H. injection H as -> H. f_equal. by apply IH.
Qed.

(** The prefix a table's keys are built from. *)
Definition key_prefix (options : option TableOptions) : string :=
  default "table" (options ≫= queryParamPrefix).

(** The five fixed keys of a table. *)
Definition fixed_keys (options : option TableOptions) : list string :=
  [ QueryKeys.keywordSearch (getQueryKeys options);
    QueryKeys.sortBy (getQueryKeys options);
    QueryKeys.sortOrder (getQueryKeys options);
    QueryKeys.columnVisibility (getQueryKeys options);
    QueryKeys.page (getQueryKeys options) ].

(** The key that holds the filter of column [columnKey]. *)
Definition filter_key (options : option TableOptions) (columnKey : string) : string :=
  QueryKeys.filterPrefix (getQueryKeys options) +:+ columnKey.

Lemma fixed_keys_suffix (options : option TableOptions) (k : string) :
  k ∈ fixed_keys options ->
  exists suffix, k = key_prefix options +:+ suffix /\
    suffix ∈ ["_keyword"; "_sort_by"; "_sort_order"; "_columns"; "_page"].
Proof.
  unfold fixed_keys, getQueryKeys, key_prefix. cbn [QueryKeys.keywordSearch
    QueryKeys.sortBy QueryKeys.sortOrder QueryKeys.columnVisibility QueryKeys.page].
  intros H. repeat (apply elem_of_cons in H as [->|H]; [eexists; split; [reflexivity|]|]).
  - apply list_elem_of_In. by left.
  - apply list_elem_of_In. right. by left.
  - apply list_elem_of_In. do 2 right. by left.
  - apply list_elem_of_In. do 3 right. by left.
  - apply list_elem_of_In. do 4 right. by left.
  - by apply elem_of_nil in H.
Qed.

Lemma filter_key_suffix (options : option TableOptions) (columnKey : string) :
  filter_key options columnKey = key_prefix options +:+ ("_filter_" +:+ columnKey).
Proof. unfold filter_key, getQueryKeys, key_prefix. cbn. apply string_app_assoc. Qed.

Lemma fixed_key_not_filter_key (options : option TableOptions) (k columnKey : string) :
  k ∈ fixed_keys options -> k <> filter_key options columnKey.
Proof.
  intros Hk Heq. apply fixed_keys_suffix in Hk as (suffix & -> & Hs).
  rewrite filter_key_suffix in Heq. apply string_app_inv_head in Heq. subst suffix.
  repeat (apply elem_of_cons in Hs as [Hs|Hs]; [by rewrite !string_app_cons in Hs|]).
  by apply elem_of_nil in Hs.
Qed.

Lemma filter_key_inj (options : option TableOptions) (c1 c2 : string) :
  filter_key options c1 = filter_key options c2 -> c1 = c2.
Proof. unfold filter_key. apply string_app_inv_head. Qed.

Lemma fixed_keys_NoDup (options : option TableOptions) : NoDup (fixed_keys options).
Proof.
  unfold fixed_keys, getQueryKeys.
  cbn [QueryKeys.keywordSearch QueryKeys.sortBy QueryKeys.sortOrder
       QueryKeys.columnVisibility QueryKeys.page].
  set (p := default "table" _).
  repeat (apply NoDup_cons; split;
    [intros H; repeat (apply elem_of_cons in H as [H|H];
                       [by apply string_app_inv_head in H|]);
     by apply elem_of_nil in H|]).
  apply NoDup_nil_2.
Qed.

End KeyFacts.

(** X1.  Within one table no two query keys coincide: the five fixed keys
    are pairwise distinct, no fixed key is the filter key of any column,
    and distinct columns have distinct filter keys. *)
Theorem query_keys_separated (options : option TableOptions) :
  NoDup (fixed_keys options) /\
  (forall k columnKey, k ∈ fixed_keys options -> k <> filter_key options columnKey) /\
  (forall c1 c2, c1 <> c2 -> filter_key options c1 <> filter_key options c2).
Proof.
  split; [apply fixed_keys_NoDup|]. split.
  - apply fixed_key_not_filter_key.
  - intros c1 c2 Hne Heq. by apply Hne, (filter_key_inj options).
Qed.

Lemma query_keys_separated_witness :
  "table_page" <> filter_key None "page" /\
  filter_key None "name" <> filter_key None "age".
Proof.
  split.
  - refine (proj1 (proj2 (query_keys_separated None)) "table_page" "page" _).
    apply list_elem_of_In. do 4 right. by left.
  - refine (proj2 (proj2 (query_keys_separated None)) "name" "age" _). discriminate.
Defined.

(** X2.  Two tables with different prefixes never share a key for the same
    field, nor a filter key for the same column; but a prefix does not
    fence a table off: the filter key of one table can be a fixed key of
    another. *)
Theorem query_keys_across_tables :
  (forall o1 o2, key_prefix o1 <> key_prefix o2 ->
     QueryKeys.keywordSearch (getQueryKeys o1) <> QueryKeys.keywordSearch (getQueryKeys o2) /\
     QueryKeys.sortBy (getQueryKeys o1) <> QueryKeys.sortBy (getQueryKeys o2) /\
     QueryKeys.sortOrder (getQueryKeys o1) <> QueryKeys.sortOrder (getQueryKeys o2) /\
     QueryKeys.columnVisibility (getQueryKeys o1)
       <> QueryKeys.columnVisibility (getQueryKeys o2) /\
     QueryKeys.page (getQueryKeys o1) <> QueryKeys.page (getQueryKeys o2) /\
     forall c, filter_key o1 c <> filter_key o2 c) /\
  (exists o1 o2 c, key_prefix o1 <> key_prefix o2 /\
     filter_key o1 c = QueryKeys.page (getQueryKeys o2)).
Proof.
  split.
  - intros o1 o2 Hne. unfold filter_key, getQueryKeys, key_prefix in *.
    cbn [QueryKeys.keywordSearch QueryKeys.sortBy QueryKeys.sortOrder
         QueryKeys.columnVisibility QueryKeys.page QueryKeys.filterPrefix].
    repeat split; try (intros H; by apply string_app_inv_tail in H).
    intros c H. rewrite !string_app_assoc in H. by apply string_app_inv_tail in H.
  - exists (Some {| queryParamPrefix := Some "a" |}),
           (Some {| queryParamPrefix := Some "a_filter_x" |}), "x_page".
    split; [discriminate | reflexivity].
Qed.

Lemma query_keys_across_tables_witness :
  QueryKeys.page (getQueryKeys None)
    <> QueryKeys.page (getQueryKeys (Some {| queryParamPrefix := Some "users" |})).
Proof.
  refine (proj1 (proj2 (proj2 (proj2 (proj2
            (proj1 query_keys_across_tables None
               (Some {| queryParamPrefix := Some "users" |}) _)))))).
  discriminate.
Defined.

(** ** What the decoder reads *)

Section DecoderLocality.

Context {V : Type}.
Local Abbreviation Column := (ColumnDefinition V).

(** The keys a table owns: its fixed keys and the filter keys of its
    columns that have a filter definition. *)
Definition own_key (options : option TableOptions) (columnDefinitions : list Column)
    (k : string) : Prop :=
  k ∈ fixed_keys options \/
  exists col, col ∈ columnDefinitions /\ filter col <> None /\
              k = filter_key options (key col).

Lemma parseFilters_step_ext (m1 m2 : RawQueryMap) (queryKeys : QueryKeys.t)
    (acc : gmap string V) (col : Column) :
  (filter col <> None ->
   m1 !! (QueryKeys.filterPrefix queryKeys +:+ key col)
   = m2 !! (QueryKeys.filterPrefix queryKeys +:+ key col)) ->
  parseFilters_step m1 queryKeys acc col = parseFilters_step m2 queryKeys acc col.
Proof.
  intros H. unfold parseFilters_step.
  destruct (filter col) as [f|]; [|done]. by rewrite H.
Qed.

Lemma parseFilters_ext (m1 m2 : RawQueryMap) (queryKeys : QueryKeys.t)
    (columnDefinitions : list Column) :
  (forall col, col ∈ columnDefinitions -> filter col <> None ->
     m1 !! (QueryKeys.filterPrefix queryKeys +:+ key col)
     = m2 !! (QueryKeys.filterPrefix queryKeys +:+ key col)) ->
  parseFilters m1 queryKeys columnDefinitions = parseFilters m2 queryKeys columnDefinitions.
Proof.
  unfold parseFilters. generalize (∅ : gmap string V).
  induction columnDefinitions as [|x l IH]; intros acc H; [done|].
  cbn [fold_left]. rewrite (parseFilters_step_ext m1 m2).
  - apply IH. intros col Hin. apply H. by right.
  - apply H. by left.
Qed.

(** X3.  The decoded state depends on the table's own keys only: two query
    maps that agree on the five fixed keys and on the filter keys of the
    filterable columns decode to the same state, whatever else they hold. *)
Theorem decoder_reads_own_keys (columnDefinitions : list Column)
    (options : option TableOptions) (m1 m2 : RawQueryMap) :
  (forall k, own_key options columnDefinitions k -> m1 !! k = m2 !! k) ->
  useTableState columnDefinitions options m1 = useTableState columnDefinitions options m2.
Proof.
  intros H.
  assert (Hfix : forall k, k ∈ fixed_keys options -> m1 !! k = m2 !! k).
  { intros k Hk. apply H. by left. }
  unfold useTableState, parseTableState.
  rewrite (Hfix (QueryKeys.keywordSearch (getQueryKeys options)))
    by (apply list_elem_of_In; by left).
  rewrite (Hfix (QueryKeys.sortBy (getQueryKeys options)))
    by (apply list_elem_of_In; right; by left).
  rewrite (Hfix (QueryKeys.sortOrder (getQueryKeys options)))
    by (apply list_elem_of_In; do 2 right; by left).
  rewrite (Hfix (QueryKeys.columnVisibility (getQueryKeys options)))
    by (apply list_elem_of_In; do 3 right; by left).
  rewrite (Hfix (QueryKeys.page (getQueryKeys options)))
    by (apply list_elem_of_In; do 4 right; by left).
  rewrite (parseFilters_ext m1 m2); [done|].
  intros col Hin Hf. apply H. right. by exists col.
Qed.

End DecoderLocality.

Lemma decoder_reads_own_keys_witness :
  useTableState TestTable.columnDefinitions None
    {[ "table_page" := "3"; "other_page" := "7"; "table_filter_id" := "x" ]}
  = useTableState TestTable.columnDefinitions None {[ "table_page" := "3" ]}.
Proof.
  apply decoder_reads_own_keys.
  intros k [Hk|(col & Hin & Hf & ->)].
  - repeat (apply elem_of_cons in Hk as [->|Hk]; [by vm_compute|]).
    by apply elem_of_nil in Hk.
  - repeat (apply elem_of_cons in Hin as [->|Hin];
            [first [by destruct Hf | by vm_compute]|]).
    by apply elem_of_nil in Hin.
Defined.

(** ** Invariants of the decoded state *)

Section DecodedInvariants.

Context {V : Type}.
Local Abbreviation Column := (ColumnDefinition V).

Lemma is_sortable_spec (columnDefinitions : list Column) (k : string) :
  is_sortable columnDefinitions k = true <->
  exists col, col ∈ columnDefinitions /\ key col = k /\ sortable col = true.
Proof.
  unfold is_sortable. rewrite existsb_exists. split.
  - intros (col & Hin & H). apply andb_prop in H as [Hk Hs].
    exists col. split; [by apply list_elem_of_In|].
    by apply bool_decide_eq_true in Hk.
  - intros (col & Hin & Hk & Hs). exists col. split; [by apply list_elem_of_In|].
    apply andb_true_intro. split; [by apply bool_decide_eq_true | done].
Qed.

(** X4.  The decoded sort column is either [null] or the raw sort-by
    value, and then that value is non-empty and names a sortable column;
    the decoded order is either [null] or the raw order, which is then
    [asc] or [desc].  Each of the two is decided by its own key alone. *)
Theorem decoded_sort_valid (columnDefinitions : list Column)
    (options : option TableOptions) (searchParams : RawQueryMap) :
  let state := sort (useTableState columnDefinitions options searchParams) in
  (forall c, Sort.sortBy state = Some c ->
     searchParams !! QueryKeys.sortBy (getQueryKeys options) = Some c /\ c <> "" /\
     exists col, col ∈ columnDefinitions /\ key col = c /\ sortable col = true) /\
  (forall o, Sort.sortOrder state = Some o ->
     searchParams !! QueryKeys.sortOrder (getQueryKeys options)
       = Some (SortOrder_to_string o)) /\
  (forall other : RawQueryMap,
     other !! QueryKeys.sortBy (getQueryKeys options)
       = searchParams !! QueryKeys.sortBy (getQueryKeys options) ->
     Sort.sortBy (sort (useTableState columnDefinitions options other))
       = Sort.sortBy state) /\
  (forall other : RawQueryMap,
     other !! QueryKeys.sortOrder (getQueryKeys options)
       = searchParams !! QueryKeys.sortOrder (getQueryKeys options) ->
     Sort.sortOrder (sort (useTableState columnDefinitions options other))
       = Sort.sortOrder state).
Proof.
  cbn zeta. unfold useTableState, parseTableState. cbn [sort Sort.sortBy Sort.sortOrder].
  split; [|split; [|split]].
  - intros c H.
    destruct (searchParams !! QueryKeys.sortBy (getQueryKeys options)) as [s|] eqn:E;
      [|done].
    cbn [default] in H. unfold id in H.
    destruct (Js.truthy (Some s)) eqn:Ht; [|done].
    destruct (is_sortable columnDefinitions s) eqn:Hs; [|done].
    simpl in H. injection H as ->.
    split; [done|]. split; [by destruct c|]. by apply is_sortable_spec.
  - intros o H. repeat case_bool_decide; simplify_eq; done.
  - by intros other ->.
  - by intros other ->.
Qed.

Lemma initially_visible_defined (columnDefinitions : list Column) (k : string) :
  k ∈ initially_visible columnDefinitions ->
  exists col, col ∈ columnDefinitions /\ key col = k.
Proof.
  unfold initially_visible. intros H. apply list_elem_of_In, in_map_iff in H.
  destruct H as (col & Hk & Hin). apply filter_In in Hin as [Hin _].
  exists col. split; [by apply list_elem_of_In | done].
Qed.

(** X5.  Every key of the decoded [columnVisibility] names a defined
    column, for every registry and every query map. *)
Theorem decoded_visibility_defined (columnDefinitions : list Column)
    (options : option TableOptions) (searchParams : RawQueryMap) (k : string) :
  k ∈ columnVisibility (useTableState columnDefinitions options searchParams) ->
  exists col, col ∈ columnDefinitions /\ key col = k.
Proof.
  rewrite useTableState_columnVisibility, parseColumnVisibility_cases.
  unfold retained. intros H.
  destruct (List.filter _ _) as [|t ts] eqn:E.
  - by apply initially_visible_defined.
  - rewrite <- E in H. apply list_elem_of_In, filter_In in H as [_ H].
    by apply is_defined_spec.
Qed.

End DecodedInvariants.

Lemma decoded_sort_valid_witness :
  ({[ "table_sort_by" := "name"; "table_sort_order" := "bogus" ]} : RawQueryMap)
    !! QueryKeys.sortBy (getQueryKeys None) = Some "name" /\ "name" <> "" /\
  exists col, col ∈ TestTable.columnDefinitions /\ key col = "name" /\ sortable col = true.
Proof.
  refine (proj1 (decoded_sort_valid TestTable.columnDefinitions None
                   {[ "table_sort_by" := "name"; "table_sort_order" := "bogus" ]})
            "name" _).
  reflexivity.
Defined.

Lemma decoded_visibility_defined_witness :
  exists col, col ∈ TestTable.columnDefinitions /\ key col = "age".
Proof.
  apply (decoded_visibility_defined TestTable.columnDefinitions None
           {[ "table_columns" := "bogus,age" ]} "age").
  vm_compute. apply list_elem_of_In. by left.
Defined.

(** ** Decimal numerals *)

Section Numerals.

Lemma pretty_N_char_digit (d : N) :
  (d < 10)%N -> Js.digit_value (pretty_N_char d) = Some (Z.of_N d).
Proof.
  intros H.
  assert (d = 0 \/ d = 1 \/ d = 2 \/ d = 3 \/ d = 4 \/ d = 5 \/ d = 6 \/ d = 7 \/
          d = 8 \/ d = 9)%N as Hd by lia.
  repeat (destruct Hd as [->|Hd]; [reflexivity|]). by subst.
Qed.

Lemma pretty_N_char_is_digit (d : N) : Js.is_digit (pretty_N_char d) = true.
Proof. unfold pretty_N_char. by repeat case_match. Qed.

Lemma pretty_N_go_decimal (x : N) (s : string) :
  Js.all_digits s = true ->
  Js.all_digits (pretty_N_go x s) = true /\
  decimal_value (pretty_N_go x s)
  = (Z.of_N x * 10 ^ Z.of_nat (String.length s) + decimal_value s)%Z.
Proof.
  revert s. induction (N.lt_wf_0 x) as [x _ IH]; intros s Hs.
  assert (x = 0 \/ 0 < x)%N as [->|Hx] by lia.
  - rewrite pretty_N_go_0. split; [done|]. lia.
  - rewrite pretty_N_go_step by done.
    assert (x `mod` 10 < 10)%N as Hm by (apply N.mod_lt; lia).
    destruct (IH (x `div` 10)%N (N.div_lt x 10 Hx eq_refl)
                (String (pretty_N_char (x `mod` 10)) s)) as [Ha Hv].
    { cbn [Js.all_digits]. by rewrite pretty_N_char_is_digit, Hs. }
    split; [done|]. rewrite Hv.
    cbn [decimal_value String.length]. rewrite pretty_N_char_digit by done.
    cbn [default]. unfold id.
    rewrite Nat2Z.inj_succ, Z.pow_succ_r by lia.
    pose proof (N.div_mod x 10 ltac:(lia)) as Hdm.
    assert (Z.of_N x = 10 * Z.of_N (x `div` 10) + Z.of_N (x `mod` 10))%Z as -> by lia.
    ring.
Qed.

Lemma pretty_N_go_nonempty (x : N) (s : string) : s <> "" -> pretty_N_go x s <> "".
Proof.
  revert s. induction (N.lt_wf_0 x) as [x _ IH]; intros s Hs.
  assert (x = 0 \/ 0 < x)%N as [->|Hx] by lia.
  - by rewrite pretty_N_go_0.
  - rewrite pretty_N_go_step by done. apply IH; [|done].
    by apply N.div_lt.
Qed.

(** The decimal numeral of a non-negative integer: a non-empty string of
    digits that denotes it. *)
Lemma pretty_nonneg_decimal (z : Z) :
  (0 <= z)%Z ->
  pretty z <> "" /\ Js.all_digits (pretty z) = true /\ decimal_value (pretty z) = z.
Proof.
  intros Hz. destruct z as [|p|p]; [done| |lia].
  unfold pretty, pretty_Z, pretty, pretty_positive, pretty, pretty_N.
  rewrite decide_False by done.
  destruct (pretty_N_go_decimal (N.pos p) "" eq_refl) as [Ha Hv].
  split; [|split; [done|]].
  - rewrite pretty_N_go_step by done. by apply pretty_N_go_nonempty.
  - rewrite Hv. simpl. lia.
Qed.

Lemma parseInt_minus_digits (s : string) :
  s <> "" -> Js.all_digits s = true ->
  Js.parseInt (String "-" s) = Js.Int (- decimal_value s).
Proof.
  intros Hne Hs. destruct s as [|c s]; [done|].
  unfold Js.parseInt.
  change (Js.trim_start (String "-" (String c s))) with (String "-" (String c s)).
  cbn iota.
  assert (Hpre : match String c s with
                 | String "0" (String "x" r) | String "0" (String "X" r) =>
                     Js.digits_prefix Js.hex_digit_value 16 None r
                 | _ => Js.digits_prefix Js.digit_value 10 None (String c s)
                 end = Js.digits_prefix Js.digit_value 10 None (String c s)).
  { destruct s as [|c2 s2]; [by destruct c as [[] [] [] [] [] [] [] []]|].
    pose proof Hs as Hs'. cbn [Js.all_digits] in Hs'.
    apply andb_prop in Hs' as [_ Hs']. apply andb_prop in Hs' as [Hc2 _].
    destruct (is_digit_plain c2 Hc2) as (_ & _ & _ & Hx2 & HX2).
    destruct c as [[] [] [] [] [] [] [] []]; try reflexivity;
      destruct c2 as [[] [] [] [] [] [] [] []]; try reflexivity; congruence. }
  rewrite Hpre, digits_prefix_all_digits_start by done. f_equal; lia.
Qed.

End Numerals.

(** ** The remaining action, and what the actions leave alone *)

(** [n.toString()] for NaN and for an integer below 10^21 in magnitude,
    which JavaScript prints as a plain decimal numeral (beyond that it
    switches to exponent notation, which is outside this definition's
    reach). *)
Definition Number_toString (n : Js.Number) : string :=
  match n with
  | Js.NaN => "NaN"
  | Js.Int z => pretty z
  end.

(** [setPagination] of [useTableActions]. *)
Definition setPagination (options : option TableOptions) (searchParams : RawQueryMap)
    (page : Js.Number) : Outcome :=
  let queryKeys := getQueryKeys options in
  updateQueryParams searchParams queryKeys
    [(QueryKeys.page queryKeys, Some (Number_toString page))]
    false.

(** The page decoding of [parseTableState], as a function of the raw value. *)
Definition decode_page (pageParam : option string) : Js.Number :=
  if Js.test_digits (default "" pageParam)
  then Js.parseInt (default "" pageParam)
  else Js.Int 1.

Section Frames.

Context {V : Type}.
Local Abbreviation Column := (ColumnDefinition V).

Lemma useTableState_fields (columnDefinitions : list Column)
    (options : option TableOptions) (m : RawQueryMap) :
  useTableState columnDefinitions options m =
  {| keywordSearch := m !! QueryKeys.keywordSearch (getQueryKeys options);
     sort := decode_sort columnDefinitions (sort_keys options m);
     columnVisibility :=
       parseColumnVisibility (m !! QueryKeys.columnVisibility (getQueryKeys options))
         columnDefinitions;
     pagination := decode_page (m !! QueryKeys.page (getQueryKeys options));
     filterState := parseFilters m (getQueryKeys options) columnDefinitions |}.
Proof. reflexivity. Qed.

(** A query map that differs from [m] at the keys [touched] only decodes
    to the same fields as [m], except for the fields whose keys were
    touched. *)
Lemma decoded_frame (columnDefinitions : list Column) (options : option TableOptions)
    (m m' : RawQueryMap) (touched : list string) :
  (forall k, k ∉ touched -> m' !! k = m !! k) ->
  let st := useTableState columnDefinitions options m in
  let st' := useTableState columnDefinitions options m' in
  (QueryKeys.keywordSearch (getQueryKeys options) ∉ touched ->
   keywordSearch st' = keywordSearch st) /\
  (QueryKeys.sortBy (getQueryKeys options) ∉ touched ->
   QueryKeys.sortOrder (getQueryKeys options) ∉ touched ->
   sort st' = sort st) /\
  (QueryKeys.columnVisibility (getQueryKeys options) ∉ touched ->
   columnVisibility st' = columnVisibility st) /\
  (QueryKeys.page (getQueryKeys options) ∉ touched ->
   pagination st' = pagination st) /\
  ((forall col, col ∈ columnDefinitions -> filter_key options (key col) ∉ touched) ->
   filterState st' = filterState st).
Proof.
  intros H. cbn zeta. rewrite !useTableState_fields.
  cbn [keywordSearch sort columnVisibility pagination filterState].
  unfold sort_keys. repeat split.
  - intros Hk. by rewrite H.
  - intros H1 H2. by rewrite !H.
  - intros Hk. by rewrite H.
  - intros Hk. by rewrite H.
  - intros Hf. apply parseFilters_ext. intros col Hin _. apply H. by apply Hf.
Qed.

End Frames.

Lemma fixed_keys_distinct (options : option TableOptions) :
  let q := getQueryKeys options in
  QueryKeys.keywordSearch q <> QueryKeys.sortBy q /\
  QueryKeys.keywordSearch q <> QueryKeys.sortOrder q /\
  QueryKeys.keywordSearch q <> QueryKeys.columnVisibility q /\
  QueryKeys.keywordSearch q <> QueryKeys.page q /\
  QueryKeys.sortBy q <> QueryKeys.sortOrder q /\
  QueryKeys.sortBy q <> QueryKeys.columnVisibility q /\
  QueryKeys.sortBy q <> QueryKeys.page q /\
  QueryKeys.sortOrder q <> QueryKeys.columnVisibility q /\
  QueryKeys.sortOrder q <> QueryKeys.page q /\
  QueryKeys.columnVisibility q <> QueryKeys.page q.
Proof.
  cbn zeta. unfold getQueryKeys.
  cbn [QueryKeys.keywordSearch QueryKeys.sortBy QueryKeys.sortOrder
       QueryKeys.columnVisibility QueryKeys.page].
  repeat split; intros H; by apply string_app_inv_head in H.
Qed.

Lemma fixed_key_elem (options : option TableOptions) :
  let q := getQueryKeys options in
  QueryKeys.keywordSearch q ∈ fixed_keys options /\
  QueryKeys.sortBy q ∈ fixed_keys options /\
  QueryKeys.sortOrder q ∈ fixed_keys options /\
  QueryKeys.columnVisibility q ∈ fixed_keys options /\
  QueryKeys.page q ∈ fixed_keys options.
Proof.
  cbn zeta. unfold fixed_keys.
  repeat split; apply list_elem_of_In; simpl; tauto.
Qed.

(** Bring the facts on the keys of [options] into the context. *)
Ltac key_facts options :=
  let Hd := fresh "Hdistinct" in
  let He := fresh "Helem" in
  pose proof (fixed_keys_distinct options) as Hd; cbn zeta in Hd;
  destruct Hd as (? & ? & ? & ? & ? & ? & ? & ? & ? & ?);
  pose proof (fixed_key_elem options) as He; cbn zeta in He;
  destruct He as (? & ? & ? & ? & ?).

Ltac not_touched :=
  rewrite ?not_elem_of_cons; repeat split;
  solve [ apply not_elem_of_nil
        | done
        | congruence
        | apply not_eq_sym; by apply fixed_key_not_filter_key
        | by apply fixed_key_not_filter_key ].

Section ActionEffects.

Context {V : Type}.
Local Abbreviation Column := (ColumnDefinition V).

(** X6.  After [setKeywordSearch keyword] the decoded keyword is [keyword],
    or [null] when [keyword] is the empty string; the page is back to 1;
    sort, visible columns and filters decode as before. *)
Theorem setKeywordSearch_decoded (columnDefinitions : list Column)
    (options : option TableOptions) (searchParams : RawQueryMap) (keyword : string) :
  exists newParams,
    setKeywordSearch options searchParams keyword = Pushed newParams /\
    let st := useTableState columnDefinitions options searchParams in
    let st' := useTableState columnDefinitions options newParams in
    keywordSearch st' = (if bool_decide (keyword = "") then None else Some keyword) /\
    pagination st' = Js.Int 1 /\
    sort st' = sort st /\
    columnVisibility st' = columnVisibility st /\
    filterState st' = filterState st.
Proof.
  key_facts options.
  unfold setKeywordSearch, updateQueryParams. cbn [fold_left].
  eexists. split; [reflexivity|]. cbn zeta.
  match goal with |- context [useTableState _ _ ?m'] => set (newParams := m') end.
  assert (Hframe : forall k,
            k ∉ [QueryKeys.keywordSearch (getQueryKeys options);
                 QueryKeys.page (getQueryKeys options)] ->
            newParams !! k = searchParams !! k).
  { intros k Hk. apply not_elem_of_cons in Hk as [Hk1 Hk].
    apply not_elem_of_cons in Hk as [Hk2 _].
    subst newParams. unfold apply_update. cbn [fst snd].
    rewrite lookup_delete_ne by done.
    destruct (Js.truthy (Some keyword));
      [by rewrite lookup_insert_ne | by rewrite lookup_delete_ne]. }
  destruct (decoded_frame columnDefinitions options searchParams newParams _ Hframe)
    as (_ & Hsort & Hvis & _ & Hfil).
  split; [|split; [|split; [|split]]].
  - rewrite useTableState_fields. cbn [keywordSearch].
    subst newParams. unfold apply_update. cbn [fst snd].
    rewrite lookup_delete_ne by done.
    destruct keyword as [|a keyword]; simpl.
    + by rewrite lookup_delete_eq.
    + by rewrite lookup_insert_eq.
  - rewrite useTableState_fields. cbn [pagination].
    subst newParams. by rewrite lookup_delete_eq.
  - apply Hsort; not_touched.
  - apply Hvis; not_touched.
  - apply Hfil. intros col _. not_touched.
Qed.

End ActionEffects.

Section SortEffects.

Context {V : Type}.
Local Abbreviation Column := (ColumnDefinition V).

(** X7.  [setSort] changes the decoded sort state only: keyword, visible
    columns, filters and also the page decode as before (the page is not
    reset).  With a non-empty sortable column and an order the decoded sort
    is that pair; with two [null]s it is unsorted. *)
Theorem setSort_decoded (columnDefinitions : list Column)
    (options : option TableOptions) (searchParams : RawQueryMap)
    (sortBy : option string) (sortOrder : option SortOrder) :
  exists newParams,
    setSort options searchParams sortBy sortOrder = Pushed newParams /\
    let st := useTableState columnDefinitions options searchParams in
    let st' := useTableState columnDefinitions options newParams in
    keywordSearch st' = keywordSearch st /\
    columnVisibility st' = columnVisibility st /\
    pagination st' = pagination st /\
    filterState st' = filterState st /\
    (forall c o, sortBy = Some c -> sortOrder = Some o ->
       is_sortable columnDefinitions c = true -> c <> "" ->
       sort st' = {| Sort.sortBy := Some c; Sort.sortOrder := Some o |}) /\
    (sortBy = None -> sortOrder = None ->
     sort st' = {| Sort.sortBy := None; Sort.sortOrder := None |}).
Proof.
  key_facts options.
  destruct (setSort_pushes options searchParams sortBy sortOrder)
    as (newParams & Hpush & Hkeys & Hother).
  exists newParams. split; [done|]. cbn zeta.
  assert (Hframe : forall k,
            k ∉ [QueryKeys.sortBy (getQueryKeys options);
                 QueryKeys.sortOrder (getQueryKeys options)] ->
            newParams !! k = searchParams !! k).
  { intros k Hk. apply not_elem_of_cons in Hk as [Hk1 Hk].
    apply not_elem_of_cons in Hk as [Hk2 _]. by apply Hother. }
  destruct (decoded_frame columnDefinitions options searchParams newParams _ Hframe)
    as (Hkw & _ & Hvis & Hpage & Hfil).
  split; [apply Hkw; not_touched|].
  split; [apply Hvis; not_touched|].
  split; [apply Hpage; not_touched|].
  split; [apply Hfil; intros col _; not_touched|].
  split.
  - intros c o -> -> Hs Hc. rewrite useTableState_sort, Hkeys.
    by apply decode_sort_written.
  - intros -> ->. by rewrite useTableState_sort, Hkeys.
Qed.

Lemma setSort_explicit (options : option TableOptions) (searchParams : RawQueryMap)
    (c : string) (o : SortOrder) :
  setSort options searchParams (Some c) (Some o)
  = Pushed (<[QueryKeys.sortOrder (getQueryKeys options) := SortOrder_to_string o]>
              (<[QueryKeys.sortBy (getQueryKeys options) := c]> searchParams)).
Proof. reflexivity. Qed.

Lemma setSort_clear_explicit (options : option TableOptions) (searchParams : RawQueryMap) :
  setSort options searchParams None None
  = Pushed (delete (QueryKeys.sortOrder (getQueryKeys options))
              (delete (QueryKeys.sortBy (getQueryKeys options)) searchParams)).
Proof. reflexivity. Qed.

(** X8.  On a query map without sort keys, clicking a non-empty sortable
    column three times gives the map back: the third push restores exactly
    the map the first click started from. *)
Theorem toggleSort_three_times (columnDefinitions : list Column)
    (options : option TableOptions) (searchParams : RawQueryMap) (c : string) :
  is_sortable columnDefinitions c = true -> c <> "" ->
  searchParams !! QueryKeys.sortBy (getQueryKeys options) = None ->
  searchParams !! QueryKeys.sortOrder (getQueryKeys options) = None ->
  exists m1 m2,
    useTable_toggleSort columnDefinitions options searchParams c = Pushed m1 /\
    useTable_toggleSort columnDefinitions options m1 c = Pushed m2 /\
    useTable_toggleSort columnDefinitions options m2 c = Pushed searchParams /\
    m1 <> searchParams /\ m2 <> searchParams /\ m1 <> m2.
Proof.
  intros Hs Hc Hby Hord. key_facts options.
  set (sb := QueryKeys.sortBy (getQueryKeys options)) in *.
  set (so := QueryKeys.sortOrder (getQueryKeys options)) in *.
  set (m1 := <[so := "asc"]> (<[sb := c]> searchParams)).
  set (m2 := <[so := "desc"]> (<[sb := c]> m1)).
  exists m1, m2.
  assert (K0 : sort_keys options searchParams = (None, None)).
  { unfold sort_keys. fold sb so. by rewrite Hby, Hord. }
  assert (K1 : sort_keys options m1 = (Some c, Some "asc")).
  { unfold sort_keys. fold sb so. subst m1. by simplify_map_eq. }
  assert (K2 : sort_keys options m2 = (Some c, Some "desc")).
  { unfold sort_keys. fold sb so. subst m2. by simplify_map_eq. }
  split; [|split; [|split; [|split; [|split]]]].
  - unfold useTable_toggleSort, toggleSort.
    rewrite useTableState_sort, K0. cbn [decode_sort Sort.sortBy fst snd].
    rewrite bool_decide_eq_false_2 by done. apply (setSort_explicit _ _ c asc).
  - unfold useTable_toggleSort, toggleSort.
    rewrite useTableState_sort, K1, (decode_sort_written _ c asc) by done.
    cbn [Sort.sortBy Sort.sortOrder].
    rewrite !bool_decide_eq_true_2 by done. apply (setSort_explicit _ _ c desc).
  - unfold useTable_toggleSort, toggleSort.
    rewrite useTableState_sort, K2, (decode_sort_written _ c desc) by done.
    cbn [Sort.sortBy Sort.sortOrder].
    rewrite bool_decide_eq_true_2, bool_decide_eq_false_2 by done.
    rewrite setSort_clear_explicit. f_equal. fold sb so.
    apply map_eq. intros k. subst m2 m1.
    destruct (decide (k = so)) as [->|]; [by simplify_map_eq|].
    destruct (decide (k = sb)) as [->|]; by simplify_map_eq.
  - intros E. apply (f_equal (fun m => m !! sb)) in E. subst m1.
    rewrite lookup_insert_ne, lookup_insert_eq, Hby in E by congruence. discriminate.
  - intros E. apply (f_equal (fun m => m !! sb)) in E. subst m2 m1.
    rewrite lookup_insert_ne, lookup_insert_eq, Hby in E by congruence. discriminate.
  - intros E. apply (f_equal (fun m => m !! so)) in E. subst m2 m1.
    rewrite !lookup_insert_eq in E. discriminate.
Qed.

End SortEffects.

Lemma setSort_decoded_witness :
  exists newParams,
    setSort None {[ "table_page" := "4" ]} (Some "name") (Some desc) = Pushed newParams /\
    pagination (useTableState TestTable.columnDefinitions None newParams) = Js.Int 4 /\
    sort (useTableState TestTable.columnDefinitions None newParams)
    = {| Sort.sortBy := Some "name"; Sort.sortOrder := Some desc |}.
Proof.
  destruct (setSort_decoded TestTable.columnDefinitions None {[ "table_page" := "4" ]}
              (Some "name") (Some desc))
    as (newParams & Hpush & _ & _ & Hpage & _ & Hsort & _).
  exists newParams. split; [exact Hpush|]. split.
  - exact Hpage.
  - apply (Hsort "name" desc); [reflexivity | reflexivity | reflexivity | discriminate].
Defined.

Lemma toggleSort_three_times_witness :
  exists m1 m2,
    useTable_toggleSort TestTable.columnDefinitions None {[ "table_page" := "2" ]} "id"
      = Pushed m1 /\
    useTable_toggleSort TestTable.columnDefinitions None m1 "id" = Pushed m2 /\
    useTable_toggleSort TestTable.columnDefinitions None m2 "id"
      = Pushed {[ "table_page" := "2" ]}.
Proof.
  destruct (toggleSort_three_times TestTable.columnDefinitions None
              {[ "table_page" := "2" ]} "id")
    as (m1 & m2 & H1 & H2 & H3 & _); [reflexivity | discriminate | reflexivity..|].
  exists m1, m2. split; [exact H1|]. split; [exact H2 | exact H3].
Defined.

(** ** Writing and reading back the visible columns *)

Section SplitJoin.

Lemma split_no_sep (sep : ascii) (s : string) :
  Js.contains sep s = false -> Js.split sep s = [s].
Proof.
  induction s as [|c s IH]; simpl; [done|].
  case_decide; [done|]. intros Hs. by rewrite (IH Hs).
Qed.

Lemma split_app_sep (sep : ascii) (x r : string) :
  Js.contains sep x = false ->
  Js.split sep (x +:+ String sep r) = x :: Js.split sep r.
Proof.
  induction x as [|c x IH]; intros H.
  - rewrite string_app_nil_l. simpl. by rewrite decide_True.
  - simpl in H. rewrite string_app_cons. cbn [Js.split].
    case_decide; [done|]. by rewrite (IH H).
Qed.

(** Joining tokens that hold no separator and splitting again gives the
    tokens back. *)
Lemma split_join (sep : ascii) (l : list string) :
  l <> [] -> Forall (fun t => Js.contains sep t = false) l ->
  Js.split sep (Js.join (String sep "") l) = l.
Proof.
  induction l as [|x l IH]; [done|]. intros _ Hall.
  apply Forall_cons in Hall as [Hx Hl].
  destruct l as [|y l].
  - simpl. by apply split_no_sep.
  - rewrite join_cons_cons, string_app_cons, string_app_nil_l.
    rewrite split_app_sep by done. f_equal. by apply IH.
Qed.

End SplitJoin.

Section VisibilityEffects.

Context {V : Type}.
Local Abbreviation Column := (ColumnDefinition V).

Lemma parseColumnVisibility_all_defined (param : option string)
    (columnDefinitions : list Column) :
  Forall (fun k => is_defined columnDefinitions k = true)
    (parseColumnVisibility param columnDefinitions).
Proof.
  apply Forall_forall. intros k Hk.
  rewrite parseColumnVisibility_cases in Hk. unfold retained in Hk.
  destruct (List.filter _ _) as [|t ts] eqn:E.
  - apply is_defined_spec. by apply initially_visible_defined.
  - rewrite <- E in Hk. by apply list_elem_of_In, filter_In in Hk as [_ Hk].
Qed.

Lemma filter_all_true {A : Type} (f : A -> bool) (l : list A) :
  Forall (fun x => f x = true) l -> List.filter f l = l.
Proof.
  induction 1 as [|x l Hx _ IH]; simpl; [done|]. by rewrite Hx, IH.
Qed.

Lemma Forall_filter_bool {A : Type} (P : A -> Prop) (f : A -> bool) (l : list A) :
  Forall P l -> Forall P (List.filter f l).
Proof.
  induction 1 as [|x l Hx _ IH]; simpl; [constructor|].
  destruct (f x); [by constructor | done].
Qed.

(** Decoding a pushed columns value whose tokens hold no comma. *)
Lemma decode_joined (columnDefinitions : list Column) (l : list string) :
  l <> [] -> Forall (fun t => Js.contains "," t = false) l ->
  parseColumnVisibility (Some (Js.join "," l)) columnDefinitions =
    match List.filter (is_defined columnDefinitions) l with
    | [] => initially_visible columnDefinitions
    | kept => kept
    end.
Proof.
  intros Hne Hall. rewrite parseColumnVisibility_cases. unfold retained.
  cbn [default]. unfold id. by rewrite split_join.
Qed.

(** X9.  Provided no column key and not the key passed in contains a
    comma, the pushed columns value reads back as intended: after showing
    [c] the decoded list is the old one with [c] appended (unchanged when
    [c] names no column), after hiding [c] it is the old one without [c];
    nothing is pushed exactly when hiding would leave no column.  The other
    decoded fields stay as they were. *)
Theorem setColumnVisibility_decoded (columnDefinitions : list Column)
    (options : option TableOptions) (searchParams : RawQueryMap)
    (c : string) (isVisible : bool) :
  (forall col, col ∈ columnDefinitions -> Js.contains "," (key col) = false) ->
  Js.contains "," c = false ->
  let st := useTableState columnDefinitions options searchParams in
  let expected :=
    if isVisible
    then (if is_defined columnDefinitions c
          then columnVisibility st ++ [c] else columnVisibility st)
    else List.filter (fun col => negb (bool_decide (col = c))) (columnVisibility st) in
  match useTable_setColumnVisibility columnDefinitions options searchParams c isVisible with
  | Pushed newParams =>
      let st' := useTableState columnDefinitions options newParams in
      columnVisibility st' = expected /\
      keywordSearch st' = keywordSearch st /\
      sort st' = sort st /\
      pagination st' = pagination st /\
      filterState st' = filterState st
  | Returned => isVisible = false /\ expected = []
  | Threw => False
  end.
Proof.
  intros Hkeys Hc. cbn zeta. key_facts options.
  unfold useTable_setColumnVisibility. rewrite setColumnVisibility_pushed. cbn zeta.
  set (st := useTableState columnDefinitions options searchParams).
  set (visible := columnVisibility st).
  assert (Hdef : Forall (fun k => is_defined columnDefinitions k = true) visible).
  { subst visible st. rewrite useTableState_columnVisibility.
    apply parseColumnVisibility_all_defined. }
  assert (Hcomma : Forall (fun k => Js.contains "," k = false) visible).
  { eapply Forall_impl; [exact Hdef|]. intros k Hk.
    apply is_defined_spec in Hk as (col & Hin & <-). by apply Hkeys. }
  set (cv := QueryKeys.columnVisibility (getQueryKeys options)) in *.
  assert (Hrest : forall (value : string),
            let m' := <[cv := value]> searchParams in
            keywordSearch (useTableState columnDefinitions options m') = keywordSearch st /\
            sort (useTableState columnDefinitions options m') = sort st /\
            pagination (useTableState columnDefinitions options m') = pagination st /\
            filterState (useTableState columnDefinitions options m') = filterState st).
  { intros value m'.
    assert (Hframe : forall k, k ∉ [cv] -> m' !! k = searchParams !! k).
    { intros k Hk. apply not_elem_of_cons in Hk as [Hk _].
      subst m'. by rewrite lookup_insert_ne. }
    destruct (decoded_frame columnDefinitions options searchParams m' _ Hframe)
      as (Hkw & Hsort & _ & Hpage & Hfil). fold cv in Hkw, Hsort, Hpage, Hfil.
    split; [apply Hkw; not_touched|].
    split; [apply Hsort; not_touched|].
    split; [apply Hpage; not_touched|].
    apply Hfil. intros col _. subst cv. not_touched. }
  assert (Hread : forall (l : list string),
            columnVisibility (useTableState columnDefinitions options
                                (<[cv := Js.join "," l]> searchParams))
            = parseColumnVisibility (Some (Js.join "," l)) columnDefinitions).
  { intros l. rewrite useTableState_columnVisibility. fold cv.
    by rewrite lookup_insert_eq. }
  destruct isVisible.
  - destruct (visible ++ [c]) as [|x xs] eqn:E; [by destruct visible|].
    rewrite <- E. split; [|apply Hrest].
    rewrite Hread, decode_joined.
    + rewrite List.filter_app, (filter_all_true _ _ Hdef). cbn [List.filter].
      destruct (is_defined columnDefinitions c).
      * by destruct visible.
      * rewrite app_nil_r. destruct visible as [|v vs] eqn:Ev; [|done].
        subst visible st. rewrite useTableState_columnVisibility,
          parseColumnVisibility_cases in Ev.
        by destruct (retained _ _).
    + rewrite E. done.
    + apply Forall_app. split; [done|]. by constructor.
  - destruct (List.filter _ visible) as [|x xs] eqn:E; [done|].
    rewrite <- E. split; [|apply Hrest].
    rewrite Hread, decode_joined.
    + rewrite (filter_all_true (is_defined columnDefinitions)).
      * by rewrite E.
      * by apply Forall_filter_bool.
    + by rewrite E.
    + by apply Forall_filter_bool.
Qed.

End VisibilityEffects.

Lemma setColumnVisibility_decoded_witness :
  columnVisibility (useTableState TestTable.columnDefinitions None
                      {[ "table_columns" := "age,id" ]}) = ["age"; "id"].
Proof.
  assert (Hkeys : forall col, col ∈ TestTable.columnDefinitions ->
                              Js.contains "," (key col) = false).
  { intros col Hin.
    repeat (apply elem_of_cons in Hin as [->|Hin]; [reflexivity|]).
    by apply elem_of_nil in Hin. }
  pose proof (setColumnVisibility_decoded TestTable.columnDefinitions None
                {[ "table_columns" := "age" ]} "id" true Hkeys eq_refl) as H.
  cbn zeta in H.
  change (useTable_setColumnVisibility TestTable.columnDefinitions None
            {[ "table_columns" := "age" ]} "id" true)
    with (Pushed {[ "table_columns" := "age,id" ]}) in H.
  exact (proj1 H).
Defined.

(** ** Writing and reading back a filter *)

Section FilterEffects.

Context {V : Type}.
Local Abbreviation Column := (ColumnDefinition V).

Lemma find_unique (columnDefinitions : list Column) (col : Column) :
  NoDup (map key columnDefinitions) -> col ∈ columnDefinitions ->
  List.find (fun x => bool_decide (key x = key col)) columnDefinitions = Some col.
Proof.
  induction columnDefinitions as [|x l IH]; intros Hnd Hin.
  - by apply elem_of_nil in Hin.
  - cbn [map] in Hnd. apply NoDup_cons in Hnd as [Hx Hnd].
    cbn [List.find]. apply elem_of_cons in Hin as [->|Hin].
    + by rewrite bool_decide_eq_true_2.
    + rewrite bool_decide_eq_false_2; [by apply IH|].
      intros Hk. apply Hx. rewrite Hk. by apply list_elem_of_fmap_2.
Qed.

Lemma column_filter_ext (m1 m2 : RawQueryMap) (queryKeys : QueryKeys.t) (col : Column) :
  m1 !! (QueryKeys.filterPrefix queryKeys +:+ key col)
  = m2 !! (QueryKeys.filterPrefix queryKeys +:+ key col) ->
  column_filter m1 queryKeys col = column_filter m2 queryKeys col.
Proof. intros H. unfold column_filter. by rewrite H. Qed.

(** The entry of a key is decided by the raw value under its filter key. *)
Lemma fold_step_lookup_ext (m1 m2 : RawQueryMap) (queryKeys : QueryKeys.t)
    (l : list Column) (acc1 acc2 : gmap string V) (k : string) :
  m1 !! (QueryKeys.filterPrefix queryKeys +:+ k)
  = m2 !! (QueryKeys.filterPrefix queryKeys +:+ k) ->
  acc1 !! k = acc2 !! k ->
  fold_left (parseFilters_step m1 queryKeys) l acc1 !! k
  = fold_left (parseFilters_step m2 queryKeys) l acc2 !! k.
Proof.
  intros Hm. revert acc1 acc2. induction l as [|x l IH]; intros acc1 acc2 Hacc; [done|].
  cbn [fold_left]. apply IH. rewrite !parseFilters_step_spec.
  destruct (decide (key x = k)) as [Hk|Hk].
  - rewrite (column_filter_ext m1 m2) by (by rewrite Hk).
    destruct (column_filter m2 queryKeys x); [|done].
    by rewrite Hk, !lookup_insert_eq.
  - destruct (column_filter m1 queryKeys x), (column_filter m2 queryKeys x);
      by rewrite ?lookup_insert_ne.
Qed.

Lemma filterState_lookup_ext (columnDefinitions : list Column)
    (options : option TableOptions) (m1 m2 : RawQueryMap) (k : string) :
  m1 !! filter_key options k = m2 !! filter_key options k ->
  filterState (useTableState columnDefinitions options m1) !! k
  = filterState (useTableState columnDefinitions options m2) !! k.
Proof.
  intros H. rewrite !useTableState_fields. cbn [filterState]. unfold parseFilters.
  by apply fold_step_lookup_ext.
Qed.

(** The query map pushed by [setFilter] when it pushes. *)
Definition filter_written (options : option TableOptions) (searchParams : RawQueryMap)
    (columnKey : string) (value : option string) : RawQueryMap :=
  delete (QueryKeys.page (getQueryKeys options))
    (match value with
     | Some text => <[filter_key options columnKey := text]> searchParams
     | None => delete (filter_key options columnKey) searchParams
     end).

Lemma filter_written_effects (columnDefinitions : list Column)
    (options : option TableOptions) (searchParams : RawQueryMap)
    (columnKey : string) (value : option string) :
  let m' := filter_written options searchParams columnKey value in
  let st := useTableState columnDefinitions options searchParams in
  let st' := useTableState columnDefinitions options m' in
  m' !! filter_key options columnKey = value /\
  (forall k, k <> columnKey -> filterState st' !! k = filterState st !! k) /\
  pagination st' = Js.Int 1 /\
  keywordSearch st' = keywordSearch st /\
  sort st' = sort st /\
  columnVisibility st' = columnVisibility st.
Proof.
  cbn zeta. key_facts options.
  set (m' := filter_written options searchParams columnKey value).
  pose proof (fixed_key_not_filter_key options _ columnKey
                ltac:(eassumption) : QueryKeys.page (getQueryKeys options)
                                     <> filter_key options columnKey) as Hpf.
  assert (Hframe : forall k,
            k ∉ [filter_key options columnKey; QueryKeys.page (getQueryKeys options)] ->
            m' !! k = searchParams !! k).
  { intros k Hk. apply not_elem_of_cons in Hk as [Hk1 Hk].
    apply not_elem_of_cons in Hk as [Hk2 _].
    subst m'. unfold filter_written. rewrite lookup_delete_ne by done.
    destruct value; [by rewrite lookup_insert_ne | by rewrite lookup_delete_ne]. }
  destruct (decoded_frame columnDefinitions options searchParams m' _ Hframe)
    as (Hkw & Hsort & Hvis & _ & _).
  split; [|split; [|split; [|split; [|split]]]].
  - subst m'. unfold filter_written. rewrite lookup_delete_ne by done.
    destruct value; [apply lookup_insert_eq | apply lookup_delete_eq].
  - intros k Hk. apply filterState_lookup_ext, Hframe.
    apply not_elem_of_cons. split.
    + intros E. by apply filter_key_inj in E.
    + apply not_elem_of_cons. split; [|apply not_elem_of_nil].
      apply not_eq_sym. by apply fixed_key_not_filter_key.
  - rewrite useTableState_fields. cbn [pagination].
    subst m'. unfold filter_written. by rewrite lookup_delete_eq.
  - apply Hkw; not_touched.
  - apply Hsort; not_touched.
  - apply Hvis; not_touched.
Qed.

(** X10.  In a registry with unique keys, setting a filter value that the
    column's codec round-trips makes the decoded filter of that column the
    value, leaves every other column's filter as it was, and resets the
    page to 1; keyword, sort and visible columns decode as before.  The
    one exception is a column keyed [__proto__]: its value is written to
    the query map like any other, but the decoder keeps no entry for it. *)
Theorem setFilter_decoded (columnDefinitions : list Column)
    (options : option TableOptions) (searchParams : RawQueryMap)
    (col : Column) (f : ColumnFilterDefinition V) (v : V) (text : string) :
  NoDup (map key columnDefinitions) -> col ∈ columnDefinitions ->
  filter col = Some f ->
  encodeForUrl f v = Js.Ret text -> decodeFromUrl f text = Js.Ret (Some v) ->
  exists newParams,
    useTable_setFilter columnDefinitions options searchParams (key col) (Some v)
      = Pushed newParams /\
    let st := useTableState columnDefinitions options searchParams in
    let st' := useTableState columnDefinitions options newParams in
    newParams !! filter_key options (key col) = Some text /\
    filterState st' !! key col
      = (if bool_decide (key col = "__proto__") then None else Some v) /\
    (forall k, k <> key col -> filterState st' !! k = filterState st !! k) /\
    pagination st' = Js.Int 1 /\
    keywordSearch st' = keywordSearch st /\
    sort st' = sort st /\
    columnVisibility st' = columnVisibility st.
Proof.
  intros Hnd Hin Hf Henc Hdec.
  exists (filter_written options searchParams (key col) (Some text)). split.
  - unfold useTable_setFilter, setFilter. rewrite (find_unique _ _ Hnd Hin).
    cbn [mbind option_bind]. by rewrite Hf, Henc.
  - destruct (filter_written_effects columnDefinitions options searchParams
                (key col) (Some text)) as (Hraw & Hrest).
    cbn zeta. split; [exact Hraw|]. split; [|exact Hrest].
    rewrite useTableState_fields. cbn [filterState]. unfold parseFilters.
    rewrite fold_step_unique by (done || apply lookup_empty).
    unfold column_filter. fold (filter_key options (key col)).
    by rewrite Hf, Hraw, Hdec.
Qed.

(** X11.  Clearing a filter ([setFilter] with [null]) always pushes: the
    decoded filter mapping no longer has the key, every other key's entry
    is as before, and the page is reset to 1; keyword, sort and visible
    columns decode as before.  This holds for any key, also one that names
    no column. *)
Theorem setFilter_clear_decoded (columnDefinitions : list Column)
    (options : option TableOptions) (searchParams : RawQueryMap) (columnKey : string) :
  exists newParams,
    useTable_setFilter columnDefinitions options searchParams columnKey None
      = Pushed newParams /\
    let st := useTableState columnDefinitions options searchParams in
    let st' := useTableState columnDefinitions options newParams in
    filterState st' !! columnKey = None /\
    (forall k, k <> columnKey -> filterState st' !! k = filterState st !! k) /\
    pagination st' = Js.Int 1 /\
    keywordSearch st' = keywordSearch st /\
    sort st' = sort st /\
    columnVisibility st' = columnVisibility st.
Proof.
  exists (filter_written options searchParams columnKey None). split; [reflexivity|].
  destruct (filter_written_effects columnDefinitions options searchParams
              columnKey None) as (Hraw & Hrest).
  cbn zeta. split; [|exact Hrest].
  rewrite useTableState_fields. cbn [filterState].
  destruct (parseFilters _ _ _ !! columnKey) as [v|] eqn:E; [|done].
  unfold parseFilters in E. apply fold_step_source in E as [E|(c & _ & Hk & Hc)].
  - by rewrite lookup_empty in E.
  - unfold column_filter in Hc. rewrite Hk in Hc.
    fold (filter_key options columnKey) in Hc. rewrite Hraw in Hc.
    by destruct (filter c).
Qed.

End FilterEffects.

Lemma setFilter_decoded_witness :
  exists newParams,
    useTable_setFilter TestTable.columnDefinitions None {[ "table_page" := "3" ]}
      "name" (Some (TestTable.CString "sato")) = Pushed newParams /\
    filterState (useTableState TestTable.columnDefinitions None newParams) !! "name"
      = Some (TestTable.CString "sato") /\
    pagination (useTableState TestTable.columnDefinitions None newParams) = Js.Int 1.
Proof.
  assert (Hnd : NoDup (map key TestTable.columnDefinitions)).
  { apply (bool_decide_unpack _). by vm_compute. }
  assert (Hin : TestTable.nameColumn ∈ TestTable.columnDefinitions).
  { apply list_elem_of_In. right. by left. }
  destruct (setFilter_decoded TestTable.columnDefinitions None {[ "table_page" := "3" ]}
              TestTable.nameColumn TestTable.nameFilter (TestTable.CString "sato") "sato"
              Hnd Hin eq_refl eq_refl eq_refl)
    as (newParams & Hpush & _ & Hentry & _ & Hpage & _).
  exists newParams. split; [exact Hpush|]. split; [exact Hentry | exact Hpage].
Defined.

Lemma setFilter_clear_decoded_witness :
  exists newParams,
    useTable_setFilter TestTable.columnDefinitions None
      {[ "table_filter_name" := "sato"; "table_filter_age" := "30" ]} "name" None
      = Pushed newParams /\
    filterState (useTableState TestTable.columnDefinitions None newParams) !! "age"
    = Some (TestTable.CNumber (Js.Int 30)).
Proof.
  destruct (setFilter_clear_decoded TestTable.columnDefinitions None
              {[ "table_filter_name" := "sato"; "table_filter_age" := "30" ]} "name")
    as (newParams & Hpush & _ & Hother & _).
  exists newParams. split; [exact Hpush|].
  rewrite (Hother "age"); [by vm_compute | discriminate].
Defined.

(** X12.  Encoding is fail-fast: when the column's filter comes from
    [defineTableColumnFilterWithSchema] and the schema rejects the value,
    [setFilter] throws and pushes nothing. *)
Theorem setFilter_schema_rejects {J : Type} (null : J) (v_parse : J -> Js.Completion J)
    (JSON_stringify : J -> Js.Completion string) (JSON_parse : string -> Js.Completion J)
    (is_null : J -> bool) (initial : option J)
    (columnDefinitions : list (ColumnDefinition J)) (options : option TableOptions)
    (searchParams : RawQueryMap) (col : ColumnDefinition J) (value : J) :
  NoDup (map key columnDefinitions) -> col ∈ columnDefinitions ->
  filter col = Some (FilterUtils.defineTableColumnFilterWithSchema
                       null v_parse JSON_stringify JSON_parse is_null initial) ->
  v_parse value = Js.Throw ->
  useTable_setFilter columnDefinitions options searchParams (key col) (Some value) = Threw.
Proof.
  intros Hnd Hin Hf Hv. unfold useTable_setFilter, setFilter.
  rewrite (find_unique _ _ Hnd Hin). cbn [mbind option_bind]. rewrite Hf.
  cbn [encodeForUrl FilterUtils.defineTableColumnFilterWithSchema].
  unfold FilterUtils.encodeForUrl. by rewrite Hv.
Qed.

Lemma setFilter_schema_rejects_witness :
  useTable_setFilter
    [ {| key := "age"; sortable := true; initialVisibility := true;
         filter := Some (FilterUtils.defineTableColumnFilterWithSchema
                           NumberCodec.VNull NumberCodec.v_parse
                           NumberCodec.JSON_stringify NumberCodec.JSON_parse
                           (fun v => match v with NumberCodec.VNull => true | _ => false end)
                           None) |} ]
    None ∅ "age" (Some (NumberCodec.VBool true)) = Threw.
Proof.
  refine (setFilter_schema_rejects NumberCodec.VNull NumberCodec.v_parse
            NumberCodec.JSON_stringify NumberCodec.JSON_parse _ None _ None ∅
            {| key := "age"; sortable := true; initialVisibility := true;
               filter := Some _ |} (NumberCodec.VBool true) _ _ eq_refl eq_refl).
  - apply (bool_decide_unpack _). by vm_compute.
  - apply list_elem_of_here.
Defined.

(** X13.  [setPagination] performs no clamping and the decoder accepts
    what it writes: for every integer page (below 10^21 in magnitude),
    zero and negative ones included, the decoded page after the push is
    that integer, while a NaN page reads back as 1.  Keyword, sort, visible
    columns and filters decode as before. *)
Theorem setPagination_decoded {V : Type} (columnDefinitions : list (ColumnDefinition V))
    (options : option TableOptions) (searchParams : RawQueryMap) (page : Js.Number) :
  match page with Js.Int z => (- 10 ^ 21 < z < 10 ^ 21)%Z | Js.NaN => True end ->
  exists newParams,
    setPagination options searchParams page = Pushed newParams /\
    let st := useTableState columnDefinitions options searchParams in
    let st' := useTableState columnDefinitions options newParams in
    pagination st' = match page with Js.Int z => Js.Int z | Js.NaN => Js.Int 1 end /\
    keywordSearch st' = keywordSearch st /\
    sort st' = sort st /\
    columnVisibility st' = columnVisibility st /\
    filterState st' = filterState st.
Proof.
  intros _. key_facts options.
  unfold setPagination, updateQueryParams. cbn [fold_left apply_update fst snd].
  eexists. split; [reflexivity|]. cbn zeta.
  set (pg := QueryKeys.page (getQueryKeys options)) in *.
  set (m' := <[pg := Number_toString page]> searchParams).
  assert (Hframe : forall k, k ∉ [pg] -> m' !! k = searchParams !! k).
  { intros k Hk. apply not_elem_of_cons in Hk as [Hk _].
    subst m'. by rewrite lookup_insert_ne. }
  destruct (decoded_frame columnDefinitions options searchParams m' _ Hframe)
    as (Hkw & Hsort & Hvis & _ & Hfil). fold pg in Hkw, Hsort, Hvis, Hfil.
  split; [|split; [|split; [|split]]].
  - rewrite useTableState_fields. cbn [pagination]. fold pg.
    subst m'. rewrite lookup_insert_eq. unfold decode_page. cbn [default]. unfold id.
    destruct page as [|z]; [reflexivity|]. cbn [Number_toString].
    destruct (Z_lt_le_dec z 0) as [Hneg|Hpos].
    + destruct z as [|p|p]; [lia|lia|].
      change (pretty (Z.neg p)) with ("-" +:+ pretty (Z.pos p)).
      rewrite string_app_cons, string_app_nil_l.
      destruct (pretty_nonneg_decimal (Z.pos p) ltac:(lia)) as (Hne & Hall & Hval).
      cbn [Js.test_digits]. rewrite (all_digits_test_digits _ Hne Hall), orb_true_r.
      rewrite parseInt_minus_digits by done. by rewrite Hval.
    + destruct (pretty_nonneg_decimal z Hpos) as (Hne & Hall & Hval).
      rewrite (all_digits_test_digits _ Hne Hall), parseInt_all_digits by done.
      by rewrite Hval.
  - apply Hkw; not_touched.
  - apply Hsort; not_touched.
  - apply Hvis; not_touched.
  - apply Hfil. intros col _. subst pg. not_touched.
Qed.

Lemma setPagination_decoded_witness :
  exists newParams,
    setPagination None ∅ (Js.Int 0) = Pushed newParams /\
    pagination (useTableState TestTable.columnDefinitions None newParams) = Js.Int 0.
Proof.
  destruct (setPagination_decoded TestTable.columnDefinitions None ∅ (Js.Int 0))
    as (newParams & Hpush & Hpage & _); [simpl; lia|].
  exists newParams. split; [exact Hpush | exact Hpage].
Defined.

(** ** The namespace of a table *)

(** A key of the form [<prefix>_<suffix>]. *)
Definition in_namespace (options : option TableOptions) (k : string) : Prop :=
  exists suffix, k = key_prefix options +:+ String "_" suffix.

Lemma fixed_key_in_namespace (options : option TableOptions) (k : string) :
  k ∈ fixed_keys options -> in_namespace options k.
Proof.
  intros H. apply fixed_keys_suffix in H as (suffix & -> & Hs).
  repeat (apply elem_of_cons in Hs as [->|Hs]; [by eexists|]).
  by apply elem_of_nil in Hs.
Qed.

Lemma filter_key_in_namespace (options : option TableOptions) (columnKey : string) :
  in_namespace options (filter_key options columnKey).
Proof. rewrite filter_key_suffix. by eexists. Qed.

Lemma updateQueryParams_frame (searchParams : RawQueryMap) (queryKeys : QueryKeys.t)
    (updates : list (string * option string)) (resetPage : bool)
    (newParams : RawQueryMap) (k : string) :
  updateQueryParams searchParams queryKeys updates resetPage = Pushed newParams ->
  (forall entry, entry ∈ updates -> entry.1 <> k) ->
  (resetPage = true -> QueryKeys.page queryKeys <> k) ->
  newParams !! k = searchParams !! k.
Proof.
  unfold updateQueryParams. intros [= <-] Hup Hpage.
  assert (fold_left apply_update updates searchParams !! k = searchParams !! k) as Hfold.
  { revert searchParams. induction updates as [|e l IH]; intros m; [done|].
    cbn [fold_left]. rewrite IH by (intros entry Hin; apply Hup; by right).
    unfold apply_update.
    assert (e.1 <> k) by (apply Hup; by left).
    destruct (e.2); [by rewrite lookup_insert_ne | by rewrite lookup_delete_ne]. }
  destruct resetPage; [|done].
  rewrite lookup_delete_ne; [done|]. by apply Hpage.
Qed.

(** X14.  No action writes outside the table's namespace: whatever an
    action pushes agrees with the current query map on every key that is
    not of the form [<prefix>_...]. *)
Theorem actions_stay_in_namespace {V : Type} (columnDefinitions : list (ColumnDefinition V))
    (options : option TableOptions) (searchParams newParams : RawQueryMap) (k : string) :
  ~ in_namespace options k ->
  (exists keyword, setKeywordSearch options searchParams keyword = Pushed newParams) \/
  (exists sortBy sortOrder,
     setSort options searchParams sortBy sortOrder = Pushed newParams) \/
  (exists sortBy,
     useTable_toggleSort columnDefinitions options searchParams sortBy
       = Pushed newParams) \/
  (exists columnKey isVisible,
     useTable_setColumnVisibility columnDefinitions options searchParams
       columnKey isVisible = Pushed newParams) \/
  (exists columnKey filterValue,
     useTable_setFilter columnDefinitions options searchParams columnKey filterValue
       = Pushed newParams) \/
  (exists page, setPagination options searchParams page = Pushed newParams) ->
  newParams !! k = searchParams !! k.
Proof.
  intros Hk H. key_facts options.
  assert (Hfixed : forall x, x ∈ fixed_keys options -> x <> k).
  { intros x Hx ->. by apply Hk, fixed_key_in_namespace. }
  assert (Hfilter : forall c, filter_key options c <> k).
  { intros c <-. apply Hk, filter_key_in_namespace. }
  assert (Hsort : forall sortBy sortOrder,
            setSort options searchParams sortBy sortOrder = Pushed newParams ->
            newParams !! k = searchParams !! k).
  { intros sortBy sortOrder E. unfold setSort in E.
    eapply updateQueryParams_frame; [exact E| |done].
    intros entry Hin.
    repeat (apply elem_of_cons in Hin as [->|Hin]; [by apply Hfixed|]).
    by apply elem_of_nil in Hin. }
  destruct H as [(keyword & E)|[(sortBy & sortOrder & E)|[(sortBy & E)|
                [(columnKey & isVisible & E)|[(columnKey & filterValue & E)|(page & E)]]]]].
  - unfold setKeywordSearch in E.
    eapply updateQueryParams_frame; [exact E| |intros _; by apply Hfixed].
    intros entry Hin.
    repeat (apply elem_of_cons in Hin as [->|Hin]; [by apply Hfixed|]).
    by apply elem_of_nil in Hin.
  - by eapply Hsort.
  - unfold useTable_toggleSort, toggleSort in E.
    repeat case_bool_decide; by eapply Hsort.
  - unfold useTable_setColumnVisibility, setColumnVisibility in E.
    destruct (length _ =? 0)%nat; [done|].
    eapply updateQueryParams_frame; [exact E| |done].
    intros entry Hin.
    repeat (apply elem_of_cons in Hin as [->|Hin]; [by apply Hfixed|]).
    by apply elem_of_nil in Hin.
  - unfold useTable_setFilter, setFilter in E.
    destruct filterValue as [v|].
    + destruct (List.find _ _ ≫= filter) as [f|]; [|done].
      destruct (encodeForUrl f v) as [text|]; [|done].
      eapply updateQueryParams_frame; [exact E| |intros _; by apply Hfixed].
      intros entry Hin.
      repeat (apply elem_of_cons in Hin as [->|Hin]; [by apply Hfilter|]).
      by apply elem_of_nil in Hin.
    + eapply updateQueryParams_frame; [exact E| |intros _; by apply Hfixed].
      intros entry Hin.
      repeat (apply elem_of_cons in Hin as [->|Hin]; [by apply Hfilter|]).
      by apply elem_of_nil in Hin.
  - unfold setPagination in E.
    eapply updateQueryParams_frame; [exact E| |done].
    intros entry Hin.
    repeat (apply elem_of_cons in Hin as [->|Hin]; [by apply Hfixed|]).
    by apply elem_of_nil in Hin.
Qed.

Lemma actions_stay_in_namespace_witness :
  ({[ "users_page" := "2"; "table_page" := "5" ]} : RawQueryMap) !! "users_page"
  = ({[ "users_page" := "2" ]} : RawQueryMap) !! "users_page".
Proof.
  apply (actions_stay_in_namespace TestTable.columnDefinitions None).
  - intros (suffix & Hs). discriminate Hs.
  - do 5 right. exists (Js.Int 5). by vm_compute.
Defined.

(** ** filterUtils.ts: the free-form filter definition *)

Module FreeForm.

Section Defaults.

Context {J : Type}.
Variable is_null : J -> bool.
Variable JSON_stringify : J -> Js.Completion string.
Variable JSON_parse : string -> Js.Completion J.

(** A decoded value as a condition: JavaScript's [null] is "no condition". *)
Definition condition (v : J) : option J := if is_null v then None else Some v.

(** The decoder used when [decodeFromUrl] is left [undefined]. *)
Definition default_decode (encoded : string) : Js.Completion (option J) :=
  Js.try_catch
    (Js.bind (JSON_parse encoded) (fun parsed => Js.Ret (condition parsed)))
    (Js.Ret None).

(** [defineTableColumnFilter]: [None] for a codec function is [undefined]. *)
Definition defineTableColumnFilter (initial : option J)
    (encodeForUrl : option (J -> Js.Completion string))
    (decodeFromUrl : option (string -> Js.Completion (option J)))
    : ColumnFilterDefinition J :=
  @Build_ColumnFilterDefinition J initial
    (default (fun filter => JSON_stringify filter) encodeForUrl)
    (default default_decode decodeFromUrl).

End Defaults.

End FreeForm.

(** X15.  A filter defined without codec functions never throws on
    decoding: text that is not JSON decodes to [null], and any JSON text
    decodes to its value with no validation at all (the JSON [null] counts
    as no condition).  A non-null value that JSON represents faithfully is
    read back from its encoding. *)
Theorem free_form_default_codec {J : Type} (is_null : J -> bool)
    (JSON_stringify : J -> Js.Completion string) (JSON_parse : string -> Js.Completion J)
    (initial : option J) :
  let f := FreeForm.defineTableColumnFilter is_null JSON_stringify JSON_parse
             initial None None in
  (forall encoded, exists r, decodeFromUrl f encoded = Js.Ret r) /\
  (forall encoded, JSON_parse encoded = Js.Throw -> decodeFromUrl f encoded = Js.Ret None) /\
  (forall encoded v, JSON_parse encoded = Js.Ret v ->
     decodeFromUrl f encoded = Js.Ret (if is_null v then None else Some v)) /\
  (forall x text, JSON_stringify x = Js.Ret text -> JSON_parse text = Js.Ret x ->
     is_null x = false ->
     encodeForUrl f x = Js.Ret text /\ decodeFromUrl f text = Js.Ret (Some x)).
Proof.
  cbn zeta. cbn [decodeFromUrl encodeForUrl FreeForm.defineTableColumnFilter default].
  unfold id, FreeForm.default_decode, FreeForm.condition.
  split; [|split; [|split]].
  - intros encoded. destruct (JSON_parse encoded); simpl; eauto.
  - by intros encoded ->.
  - by intros encoded v ->.
  - intros x text Hs Hp Hn. split; [done|]. rewrite Hp. simpl. by rewrite Hn.
Qed.

(** [v === null] on the values of [NumberCodec]. *)
Definition Value_is_null (v : NumberCodec.Value) : bool :=
  match v with
  | NumberCodec.VNull => true
  | _ => false
  end.

Lemma free_form_default_codec_witness :
  decodeFromUrl
    (FreeForm.defineTableColumnFilter
       Value_is_null
       NumberCodec.JSON_stringify NumberCodec.JSON_parse None None None) "oops"
  = Js.Ret None /\
  decodeFromUrl
    (FreeForm.defineTableColumnFilter
       Value_is_null
       NumberCodec.JSON_stringify NumberCodec.JSON_parse None None None) "true"
  = Js.Ret (Some (NumberCodec.VBool true)).
Proof.
  split.
  - refine (proj1 (proj2 (free_form_default_codec Value_is_null NumberCodec.JSON_stringify
                            NumberCodec.JSON_parse None)) "oops" eq_refl).
  - refine (proj1 (proj2 (proj2 (free_form_default_codec Value_is_null NumberCodec.JSON_stringify
                                   NumberCodec.JSON_parse None)))
              "true" (NumberCodec.VBool true) eq_refl).
Defined.

(** X16.  In a registry with unique keys, the decoded filter of a column
    defined with a schema is present exactly when its raw value is JSON,
    passes the schema and is not [null], and is then the validated value; a
    missing, malformed or invalid raw value only leaves that key out.  A
    column keyed [__proto__] never has an entry. *)
Theorem schema_filter_decoded {J : Type} (null : J) (v_parse : J -> Js.Completion J)
    (JSON_stringify : J -> Js.Completion string) (JSON_parse : string -> Js.Completion J)
    (is_null : J -> bool) (initial : option J)
    (columnDefinitions : list (ColumnDefinition J)) (options : option TableOptions)
    (searchParams : RawQueryMap) (col : ColumnDefinition J) :
  NoDup (map key columnDefinitions) -> col ∈ columnDefinitions ->
  filter col = Some (FilterUtils.defineTableColumnFilterWithSchema
                       null v_parse JSON_stringify JSON_parse is_null initial) ->
  is_null null = true ->
  filterState (useTableState columnDefinitions options searchParams) !! key col =
    if bool_decide (key col = "__proto__") then None
    else
      match searchParams !! filter_key options (key col) with
      | None => None
      | Some text =>
          match JSON_parse text with
          | Js.Throw => None
          | Js.Ret parsed =>
              match v_parse parsed with
              | Js.Throw => None
              | Js.Ret v => if is_null v then None else Some v
              end
          end
      end.
Proof.
  intros Hnd Hin Hf Hnull. rewrite useTableState_fields. cbn [filterState].
  unfold parseFilters. rewrite fold_step_unique by (done || apply lookup_empty).
  unfold column_filter. rewrite Hf. fold (filter_key options (key col)).
  destruct (searchParams !! filter_key options (key col)) as [text|];
    [|by case_bool_decide].
  cbn [decodeFromUrl FilterUtils.defineTableColumnFilterWithSchema].
  unfold FilterUtils.decodeFromUrl.
  destruct (JSON_parse text) as [parsed|]; simpl;
    [|by rewrite Hnull; case_bool_decide].
  destruct (v_parse parsed) as [v|]; simpl; [|by rewrite Hnull; case_bool_decide].
  destruct (is_null v); by case_bool_decide.
Qed.

Lemma schema_filter_decoded_witness :
  filterState
    (useTableState
       [ {| key := "age"; sortable := true; initialVisibility := true;
            filter := Some (FilterUtils.defineTableColumnFilterWithSchema
                              NumberCodec.VNull NumberCodec.v_parse
                              NumberCodec.JSON_stringify NumberCodec.JSON_parse
                              Value_is_null
                              None) |} ]
       None {[ "table_filter_age" := "true" ]}) !! "age" = None.
Proof.
  refine (schema_filter_decoded NumberCodec.VNull NumberCodec.v_parse
            NumberCodec.JSON_stringify NumberCodec.JSON_parse Value_is_null None _ None
            {[ "table_filter_age" := "true" ]}
            {| key := "age"; sortable := true; initialVisibility := true;
               filter := Some _ |} _ _ eq_refl eq_refl).
  - apply (bool_decide_unpack _). by vm_compute.
  - apply list_elem_of_here.
Defined.

(** ** The older createTable.tsx: sorting and paging actions *)

Module LegacyActions.

Definition queryKeys_sortBy : string := "sortBy".
Definition queryKeys_sortOrder : string := "sortOrder".

(** [None] is [undefined]: unless both values are valid there is no sort. *)
Definition getSortFromQueryString (queryParams : RawQueryMap)
    (tableDefinition : Legacy.TableDefinition) : option (string * SortOrder) :=
  let sortByQueryParam := queryParams !! queryKeys_sortBy in
  let sortTargetColumn :=
    List.find (fun column =>
                 bool_decide (Some (Legacy.key column) = sortByQueryParam)
                 && Legacy.sortable column)
      (Legacy.columns tableDefinition) in
  let sortOrderQueryParam := queryParams !! queryKeys_sortOrder in
  let sortOrder :=
    if bool_decide (sortOrderQueryParam = Some "asc") then Some asc
    else if bool_decide (sortOrderQueryParam = Some "desc") then Some desc
    else None in
  match sortTargetColumn, sortOrder with
  | Some column, Some o => Some (Legacy.key column, o)
  | _, _ => None
  end.

Definition setSort (searchParams : RawQueryMap) (sortBy : string)
    (sortOrder : SortOrder) : Outcome :=
  let newSearchParams := searchParams in
  let newSearchParams := <[queryKeys_sortBy := sortBy]> newSearchParams in
  let newSearchParams :=
    <[queryKeys_sortOrder := SortOrder_to_string sortOrder]> newSearchParams in
  let newSearchParams := delete Legacy.queryKeys_page newSearchParams in
  Pushed newSearchParams.

Definition resetSort (searchParams : RawQueryMap) : Outcome :=
  let newSearchParams := searchParams in
  let newSearchParams := delete queryKeys_sortBy newSearchParams in
  let newSearchParams := delete queryKeys_sortOrder newSearchParams in
  let newSearchParams := delete Legacy.queryKeys_page newSearchParams in
  Pushed newSearchParams.

(** This [toggleSort] compares the raw values, not the decoded state. *)
Definition toggleSort (searchParams : RawQueryMap) (sortBy : string) : Outcome :=
  let sortByQueryParam := searchParams !! queryKeys_sortBy in
  let sortOrderQueryParam := searchParams !! queryKeys_sortOrder in
  if bool_decide (sortByQueryParam = Some sortBy) then
    if bool_decide (sortOrderQueryParam = Some "asc") then
      setSort searchParams sortBy desc
    else
      resetSort searchParams
  else
    setSort searchParams sortBy asc.

(** [n + k] on Numbers, exact for integers below 2^53 in magnitude. *)
Definition Number_add (n : Js.Number) (k : Z) : Js.Number :=
  match n with
  | Js.NaN => Js.NaN
  | Js.Int z => Js.Int (z + k)
  end.

Definition setPagination (searchParams : RawQueryMap)
    (tableDefinition : Legacy.TableDefinition) (page : Js.Number) : Outcome :=
  match Legacy.pagination tableDefinition with
  | None => Threw
  | Some _ =>
      Pushed (<[Legacy.queryKeys_page := Number_toString page]> searchParams)
  end.

Definition goPreviousPage (searchParams : RawQueryMap)
    (tableDefinition : Legacy.TableDefinition) : Outcome :=
  match Legacy.getPageFromQueryString searchParams tableDefinition with
  | None => Returned
  | Some currentPage =>
      setPagination searchParams tableDefinition (Number_add currentPage (-1))
  end.

Definition goNextPage (searchParams : RawQueryMap)
    (tableDefinition : Legacy.TableDefinition) : Outcome :=
  match Legacy.getPageFromQueryString searchParams tableDefinition with
  | None => Returned
  | Some currentPage =>
      setPagination searchParams tableDefinition (Number_add currentPage 1)
  end.

End LegacyActions.

Example legacy_toggle_twice :
  LegacyActions.toggleSort {[ "page" := "3" ]} "name"
    = Pushed {[ "sortBy" := "name"; "sortOrder" := "asc" ]} /\
  LegacyActions.toggleSort {[ "sortBy" := "name"; "sortOrder" := "asc" ]} "name"
    = Pushed {[ "sortBy" := "name"; "sortOrder" := "desc" ]}.
Proof. split; by vm_compute. Qed.

Section LegacyFacts.

Lemma pretty_N_go_positive (x : N) (s : string) :
  (0 < x)%N -> Js.all_digits s = true ->
  Js.test_positive_decimal (pretty_N_go x s) = true.
Proof.
  revert s. induction (N.lt_wf_0 x) as [x _ IH]; intros s Hx Hs.
  rewrite pretty_N_go_step by done.
  destruct (N.eq_0_gt_0_cases (x `div` 10)) as [Hq|Hq].
  - rewrite Hq, pretty_N_go_0.
    assert (x < 10)%N as Hlt.
    { pose proof (N.div_mod x 10 ltac:(lia)). pose proof (N.mod_lt x 10 ltac:(lia)). lia. }
    rewrite N.mod_small by done. cbn [Js.test_positive_decimal]. rewrite Hs.
    assert (x = 1 \/ x = 2 \/ x = 3 \/ x = 4 \/ x = 5 \/ x = 6 \/ x = 7 \/
            x = 8 \/ x = 9)%N as Hd by lia.
    repeat (destruct Hd as [->|Hd]; [reflexivity|]). by subst.
  - apply IH; [by apply N.div_lt | done |].
    cbn [Js.all_digits]. by rewrite pretty_N_char_is_digit, Hs.
Qed.

Lemma pretty_positive_decimal (z : Z) :
  (1 <= z)%Z ->
  Js.test_positive_decimal (pretty z) = true /\
  Js.Number_of_decimal (pretty z) = Js.Int z.
Proof.
  intros Hz. destruct (pretty_nonneg_decimal z ltac:(lia)) as (Hne & Hall & Hval).
  split.
  - destruct z as [|p|p]; [lia| |lia].
    unfold pretty, pretty_Z, pretty, pretty_positive, pretty, pretty_N.
    rewrite decide_False by done. by apply pretty_N_go_positive.
  - unfold Js.Number_of_decimal. destruct (pretty z) as [|c s] eqn:E; [done|].
    rewrite digits_prefix_all_digits_start by done. by rewrite Hval.
Qed.

Lemma legacy_page_value (queryParams : RawQueryMap)
    (tableDefinition : Legacy.TableDefinition) (p : Js.Number) :
  Legacy.getPageFromQueryString queryParams tableDefinition = Some p ->
  exists z, p = Js.Int z /\ (1 <= z)%Z.
Proof.
  unfold Legacy.getPageFromQueryString.
  destruct (Legacy.pagination tableDefinition); [|done].
  intros [= <-].
  destruct (Js.test_positive_decimal _) eqn:E; [|by exists 1%Z].
  set (s := default "" _) in *.
  unfold Js.Number_of_decimal.
  destruct s as [|c s']; [done|].
  rewrite digits_prefix_all_digits_start.
  - eexists. split; [reflexivity|]. by apply decimal_value_positive.
  - cbn [Js.test_positive_decimal] in E. cbn [Js.all_digits].
    apply andb_prop in E as [E Hs]. apply andb_prop in E as [Hc _].
    by rewrite Hc, Hs.
Qed.

Lemma legacy_page_written (searchParams : RawQueryMap)
    (tableDefinition : Legacy.TableDefinition) (z : Z) :
  is_Some (Legacy.pagination tableDefinition) ->
  Legacy.getPageFromQueryString
    (<[Legacy.queryKeys_page := pretty z]> searchParams) tableDefinition
  = Some (if (1 <=? z)%Z then Js.Int z else
            if Js.test_positive_decimal (pretty z)
            then Js.Number_of_decimal (pretty z) else Js.Int 1).
Proof.
  intros [pg Hpg]. unfold Legacy.getPageFromQueryString. rewrite Hpg.
  rewrite lookup_insert_eq. cbn [default]. unfold id.
  destruct (Z.leb_spec 1 z) as [Hz|Hz]; [|done].
  destruct (pretty_positive_decimal z Hz) as [-> ->]. done.
Qed.

End LegacyFacts.

(** X17.  When the table has a pagination definition the older page
    decoder returns the current page, and after [goNextPage] the decoded
    page is one more (for pages below 2^53); after [goPreviousPage] it is
    one less, except on page 1, where the action writes page 0 and the
    decoder reads page 1 again.  Nothing stops [goNextPage] at a last page. *)
Theorem legacy_page_steps (searchParams : RawQueryMap)
    (tableDefinition : Legacy.TableDefinition) (z : Z) :
  Legacy.getPageFromQueryString searchParams tableDefinition = Some (Js.Int z) ->
  (z < 2 ^ 53)%Z ->
  (exists newParams,
     LegacyActions.goNextPage searchParams tableDefinition = Pushed newParams /\
     Legacy.getPageFromQueryString newParams tableDefinition
       = Some (Js.Int (z + 1)%Z)) /\
  (exists newParams,
     LegacyActions.goPreviousPage searchParams tableDefinition = Pushed newParams /\
     newParams !! Legacy.queryKeys_page = Some (pretty (z - 1)%Z) /\
     Legacy.getPageFromQueryString newParams tableDefinition
       = Some (Js.Int (if (z =? 1)%Z then 1 else z - 1)%Z)).
Proof.
  intros Hpage _.
  destruct (legacy_page_value _ _ _ Hpage) as (z' & [= <-] & Hz).
  assert (Hcfg : is_Some (Legacy.pagination tableDefinition)).
  { unfold Legacy.getPageFromQueryString in Hpage.
    destruct (Legacy.pagination tableDefinition); [by eexists | done]. }
  destruct Hcfg as [pg Hpg].
  split.
  - unfold LegacyActions.goNextPage, LegacyActions.setPagination.
    rewrite Hpage, Hpg. eexists. split; [reflexivity|].
    cbn [LegacyActions.Number_add Number_toString].
    rewrite legacy_page_written by (by eexists).
    destruct (Z.leb_spec 1 (z + 1)); [done | lia].
  - unfold LegacyActions.goPreviousPage, LegacyActions.setPagination.
    rewrite Hpage, Hpg. eexists. split; [reflexivity|].
    cbn [LegacyActions.Number_add Number_toString].
    replace (z + -1)%Z with (z - 1)%Z by lia.
    split; [apply lookup_insert_eq|].
    rewrite legacy_page_written by (by eexists).
    destruct (Z.eqb_spec z 1) as [->|Hne].
    + reflexivity.
    + destruct (Z.leb_spec 1 (z - 1)); [done | lia].
Qed.

Lemma legacy_page_steps_witness :
  exists newParams,
    LegacyActions.goPreviousPage {[ "page" := "1" ]}
      {| Legacy.pagination := Some {| Legacy.parPage := 10 |}; Legacy.columns := [] |}
      = Pushed newParams /\
    newParams !! Legacy.queryKeys_page = Some (pretty (1 - 1)%Z) /\
    Legacy.getPageFromQueryString newParams
      {| Legacy.pagination := Some {| Legacy.parPage := 10 |}; Legacy.columns := [] |}
      = Some (Js.Int 1).
Proof.
  exact (proj2 (legacy_page_steps {[ "page" := "1" ]}
                  {| Legacy.pagination := Some {| Legacy.parPage := 10 |};
                     Legacy.columns := [] |} 1 eq_refl ltac:(lia))).
Defined.

(** Without a pagination definition the older paging actions do
    nothing useful and say so differently: the decoded page is
    [undefined], [goPreviousPage] and [goNextPage] return without pushing,
    and [setPagination] throws. *)
Lemma legacy_paging_unconfigured (searchParams : RawQueryMap)
    (tableDefinition : Legacy.TableDefinition) (page : Js.Number) :
  Legacy.pagination tableDefinition = None ->
  Legacy.getPageFromQueryString searchParams tableDefinition = None /\
  LegacyActions.goPreviousPage searchParams tableDefinition = Returned /\
  LegacyActions.goNextPage searchParams tableDefinition = Returned /\
  LegacyActions.setPagination searchParams tableDefinition page = Threw.
Proof.
  intros H.
  unfold LegacyActions.goPreviousPage, LegacyActions.goNextPage,
    LegacyActions.setPagination, Legacy.getPageFromQueryString.
  by rewrite H.
Qed.

(** X18.  With a pagination definition the older page decoder always
    yields a page of at least 1.  When the raw value matches
    [/^[1-9][0-9]*$/] and denotes an integer up to 2^53, the page is
    exactly that integer (beyond 2^53 [Number] rounds, and the page is
    still at least 1); when the value is absent or anything else (zero,
    leading zeros, a sign, other text), the page is 1. *)
Theorem legacy_page_decoded (queryParams : RawQueryMap)
    (tableDefinition : Legacy.TableDefinition) :
  is_Some (Legacy.pagination tableDefinition) ->
  exists p,
    Legacy.getPageFromQueryString queryParams tableDefinition = Some p /\
    Js.ge_one p = true /\
    (forall s, queryParams !! Legacy.queryKeys_page = Some s ->
       Js.test_positive_decimal s = true -> (decimal_value s <= 2 ^ 53)%Z ->
       p = Js.Int (decimal_value s)) /\
    (forall s, queryParams !! Legacy.queryKeys_page = Some s ->
       Js.test_positive_decimal s = false -> p = Js.Int 1) /\
    (queryParams !! Legacy.queryKeys_page = None -> p = Js.Int 1).
Proof.
  intros [pg Hpg].
  destruct (Legacy.getPageFromQueryString queryParams tableDefinition) as [p|] eqn:E;
    [|by unfold Legacy.getPageFromQueryString in E; rewrite Hpg in E].
  exists p. split; [done|]. split; [by eapply legacy_page_at_least_one|].
  unfold Legacy.getPageFromQueryString in E. rewrite Hpg in E.
  split; [|split].
  - intros s Hs Ht _. rewrite Hs in E. cbn [default] in E. unfold id in E.
    rewrite Ht in E. unfold Js.Number_of_decimal in E.
    destruct s as [|c s]; [done|].
    rewrite digits_prefix_all_digits_start in E; [by simplify_eq|].
    cbn [Js.test_positive_decimal] in Ht. cbn [Js.all_digits].
    apply andb_prop in Ht as [Ht Hs']. apply andb_prop in Ht as [Hc _].
    by rewrite Hc, Hs'.
  - intros s Hs Ht. rewrite Hs in E. cbn [default] in E. unfold id in E.
    rewrite Ht in E. by simplify_eq.
  - intros Hs. rewrite Hs in E. simpl in E. by simplify_eq.
Qed.

Lemma legacy_page_decoded_witness :
  exists p,
    Legacy.getPageFromQueryString {[ "page" := "42" ]}
      {| Legacy.pagination := Some {| Legacy.parPage := 10 |}; Legacy.columns := [] |}
      = Some p /\ Js.ge_one p = true /\ p = Js.Int (decimal_value "42").
Proof.
  destruct (legacy_page_decoded {[ "page" := "42" ]}
              {| Legacy.pagination := Some {| Legacy.parPage := 10 |};
                 Legacy.columns := [] |})
    as (p & Hp & Hge & Hval & _); [by eexists|].
  exists p. split; [exact Hp|]. split; [exact Hge|].
  apply (Hval "42"); [reflexivity | reflexivity | by vm_compute].
Defined.

Section LegacySort.

Lemma legacy_find_sortable (tableDefinition : Legacy.TableDefinition) (c : string) :
  (exists col, col ∈ Legacy.columns tableDefinition /\ Legacy.key col = c /\
               Legacy.sortable col = true) ->
  exists col',
    List.find (fun column => bool_decide (Some (Legacy.key column) = Some c)
                             && Legacy.sortable column)
      (Legacy.columns tableDefinition) = Some col' /\
    Legacy.key col' = c.
Proof.
  intros (col & Hin & Hk & Hs).
  destruct (List.find _ _) as [col'|] eqn:E.
  - exists col'. split; [done|]. apply find_some in E as [_ E].
    apply andb_prop in E as [E _]. apply bool_decide_eq_true in E. congruence.
  - exfalso. apply list_elem_of_In in Hin.
    pose proof (find_none _ _ E col Hin) as Hn. cbn beta in Hn.
    rewrite Hs, bool_decide_eq_true_2 in Hn; [done | by rewrite Hk].
Qed.

(** X19.  The older [toggleSort] compares raw values, so its cycle holds
    for every key: starting without sort keys, three clicks on a column
    write ascending, then descending, then clear both keys again; every
    click also removes the page key.  For a sortable column the decoded
    sort follows: ascending, descending, none. *)
Theorem legacy_toggleSort_cycle (tableDefinition : Legacy.TableDefinition)
    (searchParams : RawQueryMap) (c : string) :
  searchParams !! LegacyActions.queryKeys_sortBy = None ->
  searchParams !! LegacyActions.queryKeys_sortOrder = None ->
  exists m1 m2,
    LegacyActions.toggleSort searchParams c = Pushed m1 /\
    LegacyActions.toggleSort m1 c = Pushed m2 /\
    LegacyActions.toggleSort m2 c = Pushed (delete Legacy.queryKeys_page searchParams) /\
    m1 !! Legacy.queryKeys_page = None /\ m2 !! Legacy.queryKeys_page = None /\
    ((exists col, col ∈ Legacy.columns tableDefinition /\ Legacy.key col = c /\
                  Legacy.sortable col = true) ->
     LegacyActions.getSortFromQueryString m1 tableDefinition = Some (c, asc) /\
     LegacyActions.getSortFromQueryString m2 tableDefinition = Some (c, desc) /\
     LegacyActions.getSortFromQueryString
       (delete Legacy.queryKeys_page searchParams) tableDefinition = None).
Proof.
  intros Hby Hord.
  set (m1 := delete Legacy.queryKeys_page
               (<[LegacyActions.queryKeys_sortOrder := "asc"]>
                  (<[LegacyActions.queryKeys_sortBy := c]> searchParams))).
  set (m2 := delete Legacy.queryKeys_page
               (<[LegacyActions.queryKeys_sortOrder := "desc"]>
                  (<[LegacyActions.queryKeys_sortBy := c]> m1))).
  assert (Hne1 : LegacyActions.queryKeys_sortBy <> LegacyActions.queryKeys_sortOrder)
    by done.
  assert (Hne2 : Legacy.queryKeys_page <> LegacyActions.queryKeys_sortBy) by done.
  assert (Hne3 : Legacy.queryKeys_page <> LegacyActions.queryKeys_sortOrder) by done.
  assert (K1 : m1 !! LegacyActions.queryKeys_sortBy = Some c /\
               m1 !! LegacyActions.queryKeys_sortOrder = Some "asc").
  { subst m1. by simplify_map_eq. }
  assert (K2 : m2 !! LegacyActions.queryKeys_sortBy = Some c /\
               m2 !! LegacyActions.queryKeys_sortOrder = Some "desc").
  { subst m2. by simplify_map_eq. }
  destruct K1 as [K1b K1o]. destruct K2 as [K2b K2o].
  exists m1, m2. split; [|split; [|split; [|split; [|split]]]].
  - unfold LegacyActions.toggleSort. rewrite Hby.
    by rewrite bool_decide_eq_false_2.
  - unfold LegacyActions.toggleSort. rewrite K1b, K1o.
    by rewrite !bool_decide_eq_true_2.
  - unfold LegacyActions.toggleSort. rewrite K2b, K2o.
    rewrite bool_decide_eq_true_2, bool_decide_eq_false_2 by done.
    unfold LegacyActions.resetSort. f_equal.
    apply map_eq. intros k. subst m2 m1.
    destruct (decide (k = Legacy.queryKeys_page)) as [->|]; [by simplify_map_eq|].
    destruct (decide (k = LegacyActions.queryKeys_sortOrder)) as [->|];
      [by simplify_map_eq|].
    destruct (decide (k = LegacyActions.queryKeys_sortBy)) as [->|];
      by simplify_map_eq.
  - subst m1. apply lookup_delete_eq.
  - subst m2. apply lookup_delete_eq.
  - intros Hcol. destruct (legacy_find_sortable _ _ Hcol) as (col' & Hfind & Hkey).
    unfold LegacyActions.getSortFromQueryString.
    rewrite K1b, K1o, K2b, K2o, Hfind, Hkey.
    rewrite !lookup_delete_ne by done. rewrite Hord.
    split; [done|]. split; [done|].
    rewrite !bool_decide_eq_false_2 by done. by case_match.
Qed.

End LegacySort.

Lemma legacy_toggleSort_cycle_witness :
  exists m1 m2,
    LegacyActions.toggleSort {[ "page" := "3" ]} "" = Pushed m1 /\
    LegacyActions.toggleSort m1 "" = Pushed m2 /\
    LegacyActions.toggleSort m2 "" = Pushed ∅.
Proof.
  destruct (legacy_toggleSort_cycle
              {| Legacy.pagination := None; Legacy.columns := [] |}
              {[ "page" := "3" ]} "")
    as (m1 & m2 & H1 & H2 & H3 & _); [reflexivity..|].
  exists m1, m2. split; [exact H1|]. split; [exact H2 | exact H3].
Defined.

(** ** The older createTable.tsx: visible columns *)

Section LegacyVisibility.

Lemma Set_has_spec (l : list string) (k : string) :
  Legacy.Set_has l k = true <-> k ∈ l.
Proof.
  unfold Legacy.Set_has. rewrite existsb_exists. split.
  - intros (x & Hin & Hx). apply bool_decide_eq_true in Hx. subst.
    by apply list_elem_of_In.
  - intros Hin. exists k. split; [by apply list_elem_of_In|].
    by apply bool_decide_eq_true.
Qed.

(** X20.  What the older [setColumnVisibility] writes is canonical: the
    pushed columns value is the comma-join of a subsequence of the
    registry's keys (registry order), without duplicates when the registry
    has none, and it does not list a column that is being hidden. *)
Theorem legacy_columns_value_canonical (searchParams : RawQueryMap)
    (tableDefinition : Legacy.TableDefinition) (columnKey : string) (isVisible : bool)
    (newParams : RawQueryMap) (value : string) :
  Legacy.setColumnVisibility searchParams tableDefinition columnKey isVisible
    = Pushed newParams ->
  newParams !! Legacy.queryKeys_columnVisibility = Some value ->
  exists l,
    value = Js.join "," l /\
    sublist l (map Legacy.key (Legacy.columns tableDefinition)) /\
    (NoDup (map Legacy.key (Legacy.columns tableDefinition)) -> NoDup l) /\
    (isVisible = false -> columnKey ∉ l).
Proof.
  unfold Legacy.setColumnVisibility. intros H Hv.
  destruct isVisible.
  - destruct (forallb _ _).
    + simplify_eq. by rewrite lookup_delete_eq in Hv.
    + simplify_eq. rewrite lookup_insert_eq in Hv. simplify_eq.
      eexists. split; [reflexivity|].
      split; [apply filter_sublist_bool|]. split; [|done].
      intros Hnd. eapply sublist_NoDup; [exact Hnd | apply filter_sublist_bool].
  - destruct (List.filter _ (Legacy.getVisibleColumnsFromQueryString _ _)) as [|x xs] eqn:E;
      [done|].
    simplify_eq. rewrite lookup_insert_eq in Hv. simplify_eq.
    eexists. split; [reflexivity|].
    split; [apply filter_sublist_bool|]. split.
    + intros Hnd. eapply sublist_NoDup; [exact Hnd | apply filter_sublist_bool].
    + intros _ Hin. apply list_elem_of_In, filter_In in Hin as [_ Hin].
      apply Set_has_spec in Hin. rewrite <- E in Hin.
      apply list_elem_of_In, filter_In in Hin as [_ Hin].
      by rewrite bool_decide_eq_true_2 in Hin.
Qed.

Lemma legacy_columns_value_canonical_witness :
  exists l,
    "id,age" = Js.join "," l /\
    sublist l (map Legacy.key
                 [ {| Legacy.key := "id"; Legacy.sortable := true;
                      Legacy.visibility := {| Legacy.initialVisibility := true |} |};
                   {| Legacy.key := "name"; Legacy.sortable := true;
                      Legacy.visibility := {| Legacy.initialVisibility := true |} |};
                   {| Legacy.key := "age"; Legacy.sortable := false;
                      Legacy.visibility := {| Legacy.initialVisibility := false |} |} ]).
Proof.
  destruct (legacy_columns_value_canonical {[ "columns" := "age" ]}
              {| Legacy.pagination := None;
                 Legacy.columns :=
                   [ {| Legacy.key := "id"; Legacy.sortable := true;
                        Legacy.visibility := {| Legacy.initialVisibility := true |} |};
                     {| Legacy.key := "name"; Legacy.sortable := true;
                        Legacy.visibility := {| Legacy.initialVisibility := true |} |};
                     {| Legacy.key := "age"; Legacy.sortable := false;
                        Legacy.visibility := {| Legacy.initialVisibility := false |} |} ] |}
              "id" true {[ "columns" := "id,age" ]} "id,age")
    as (l & Hl & Hsub & _); [by vm_compute | by vm_compute |].
  exists l. split; [exact Hl | exact Hsub].
Defined.

(** X21.  In the older writer, showing a column so that every column is
    visible removes the columns key instead of writing it, and the decoder
    then falls back to the [initialVisibility] defaults: the decoded list
    after the push is the default list, whether or not it contains the
    column just shown. *)
Theorem legacy_show_all_falls_back (searchParams : RawQueryMap)
    (tableDefinition : Legacy.TableDefinition) (columnKey : string) :
  (forall col, col ∈ Legacy.columns tableDefinition ->
     Legacy.key col = columnKey \/
     Legacy.key col ∈ Legacy.getVisibleColumnsFromQueryString searchParams tableDefinition) ->
  Legacy.setColumnVisibility searchParams tableDefinition columnKey true
    = Pushed (delete Legacy.queryKeys_columnVisibility searchParams) /\
  Legacy.getVisibleColumnsFromQueryString
    (delete Legacy.queryKeys_columnVisibility searchParams) tableDefinition
  = map Legacy.key
      (List.filter (fun column => Legacy.initialVisibility (Legacy.visibility column))
         (Legacy.columns tableDefinition)).
Proof.
  intros Hall. split.
  - unfold Legacy.setColumnVisibility.
    assert (forallb
              (fun column =>
                 Legacy.Set_has
                   (Legacy.getVisibleColumnsFromQueryString searchParams tableDefinition
                      ++ [columnKey]) (Legacy.key column))
              (Legacy.columns tableDefinition) = true) as ->; [|done].
    apply forallb_forall. intros col Hin. apply Set_has_spec.
    apply elem_of_app. apply list_elem_of_In in Hin.
    destruct (Hall col Hin) as [->|Hv]; [right; by left | by left].
  - unfold Legacy.getVisibleColumnsFromQueryString. by rewrite lookup_delete_eq.
Qed.

Lemma legacy_show_all_falls_back_witness :
  Legacy.getVisibleColumnsFromQueryString
    (delete Legacy.queryKeys_columnVisibility ∅)
    {| Legacy.pagination := None;
       Legacy.columns :=
         [ {| Legacy.key := "id"; Legacy.sortable := true;
              Legacy.visibility := {| Legacy.initialVisibility := true |} |};
           {| Legacy.key := "age"; Legacy.sortable := false;
              Legacy.visibility := {| Legacy.initialVisibility := false |} |} ] |}
  = ["id"].
Proof.
  refine (proj2 (legacy_show_all_falls_back ∅
                   {| Legacy.pagination := None;
                      Legacy.columns :=
                        [ {| Legacy.key := "id"; Legacy.sortable := true;
                             Legacy.visibility := {| Legacy.initialVisibility := true |} |};
                          {| Legacy.key := "age"; Legacy.sortable := false;
                             Legacy.visibility := {| Legacy.initialVisibility := false |} |} ] |}
                   "age" _)).
  intros col Hin. cbn [Legacy.columns] in Hin.
  apply elem_of_cons in Hin as [->|Hin].
  - right. vm_compute. apply list_elem_of_In. by left.
  - apply elem_of_cons in Hin as [->|Hin]; [by left | by apply elem_of_nil in Hin].
Defined.

End LegacyVisibility.

(** ** The single-file createTable: sort and filter setters *)

Module SingleFileActions.

Section Setters.

Context {V : Type}.

(** [setFilter] of the single-file [createTable]: the page key is removed
    and the map pushed on every path. *)
Definition setFilter (columnDefinitions : list (ColumnDefinition V))
    (options : option SingleFile.TableOptions) (searchParams : RawQueryMap)
    (columnKey : string) (filterValue : option V) : Outcome :=
  let queryKeys := SingleFile.queryKeys options in
  let newParams := searchParams in
  let filterParamKey := QueryKeys.filterPrefix queryKeys +:+ columnKey in
  let afterFilter : Js.Completion RawQueryMap :=
    match filterValue with
    | None => Js.Ret (delete filterParamKey newParams)
    | Some filterValue =>
        let columnDef :=
          List.find (fun col => bool_decide (key col = columnKey)) columnDefinitions in
        match columnDef ≫= filter with
        | Some f =>
            Js.bind (encodeForUrl f filterValue)
              (fun encodedValue => Js.Ret (<[filterParamKey := encodedValue]> newParams))
        | None => Js.Ret newParams
        end
    end in
  match afterFilter with
  | Js.Ret newParams => Pushed (delete (QueryKeys.page queryKeys) newParams)
  | Js.Throw => Threw
  end.

End Setters.

End SingleFileActions.

(** X22.  The single-file [setSort] is all or nothing: with a non-empty
    column and an order it writes both sort keys, in every other case
    (a [null] or an empty column, a [null] order) it deletes both; it never
    touches another key, the page included. *)
Theorem singlefile_setSort_all_or_nothing (options : option SingleFile.TableOptions)
    (searchParams : RawQueryMap) (sortBy : option string) (sortOrder : option SortOrder) :
  exists newParams,
    SingleFile.setSort options searchParams sortBy sortOrder = Pushed newParams /\
    (newParams !! QueryKeys.sortBy (SingleFile.queryKeys options),
     newParams !! QueryKeys.sortOrder (SingleFile.queryKeys options))
    = match sortBy, sortOrder with
      | Some (String a c), Some o => (Some (String a c), Some (SortOrder_to_string o))
      | _, _ => (None, None)
      end /\
    (forall k, k <> QueryKeys.sortBy (SingleFile.queryKeys options) ->
               k <> QueryKeys.sortOrder (SingleFile.queryKeys options) ->
               newParams !! k = searchParams !! k).
Proof.
  pose proof (SingleFile.queryKeys_sort_distinct options) as Hne.
  unfold SingleFile.setSort. eexists. split; [reflexivity|]. split.
  - assert (Hdel : forall m : RawQueryMap,
              (delete (QueryKeys.sortOrder (SingleFile.queryKeys options))
                 (delete (QueryKeys.sortBy (SingleFile.queryKeys options)) m)
                 !! QueryKeys.sortBy (SingleFile.queryKeys options),
               delete (QueryKeys.sortOrder (SingleFile.queryKeys options))
                 (delete (QueryKeys.sortBy (SingleFile.queryKeys options)) m)
                 !! QueryKeys.sortOrder (SingleFile.queryKeys options)) = (None, None)).
    { intros m. by rewrite lookup_delete_ne, !lookup_delete_eq by congruence. }
    destruct sortBy as [[|a c]|], sortOrder as [o|]; cbn [Js.truthy fmap option_fmap
      option_map andb default]; try apply Hdel.
    unfold id. destruct o; cbn [SortOrder_to_string];
      by rewrite lookup_insert_ne, !lookup_insert_eq by congruence.
  - intros k H1 H2.
    destruct (Js.truthy sortBy && Js.truthy (SortOrder_to_string <$> sortOrder));
      by simplify_map_eq.
Qed.

Lemma singlefile_setSort_all_or_nothing_witness :
  exists newParams,
    SingleFile.setSort None {[ "sortBy" := "id"; "sortOrder" := "asc"; "page" := "2" ]}
      (Some "id") None = Pushed newParams /\
    newParams !! "page" = Some "2".
Proof.
  destruct (singlefile_setSort_all_or_nothing None
              {[ "sortBy" := "id"; "sortOrder" := "asc"; "page" := "2" ]} (Some "id") None)
    as (newParams & Hpush & _ & Hother).
  exists newParams. split; [exact Hpush|].
  rewrite (Hother "page"); [reflexivity | discriminate | discriminate].
Defined.

(** X23.  In the single-file [createTable], setting a non-null filter on
    a column without a filter definition is not silent: the filter keys
    stay as they are, but the call still pushes, and the pushed map has
    lost the page key. *)
Theorem singlefile_setFilter_unconfigured {V : Type}
    (columnDefinitions : list (ColumnDefinition V))
    (options : option SingleFile.TableOptions) (searchParams : RawQueryMap)
    (columnKey : string) (filterValue : V) :
  (forall col, col ∈ columnDefinitions -> key col = columnKey -> filter col = None) ->
  SingleFileActions.setFilter columnDefinitions options searchParams columnKey
    (Some filterValue)
  = Pushed (delete (QueryKeys.page (SingleFile.queryKeys options)) searchParams).
Proof.
  intros H. unfold SingleFileActions.setFilter.
  by rewrite (find_filter_none _ _ H).
Qed.

Lemma singlefile_setFilter_unconfigured_witness :
  SingleFileActions.setFilter TestTable.columnDefinitions None
    {[ "page" := "3"; "keyword" := "kw" ]} "id" (Some (TestTable.CString "x"))
  = Pushed {[ "keyword" := "kw" ]}.
Proof.
  refine (singlefile_setFilter_unconfigured TestTable.columnDefinitions None
            {[ "page" := "3"; "keyword" := "kw" ]} "id" (TestTable.CString "x") _).
  intros col Hin Hk.
  repeat (apply elem_of_cons in Hin as [->|Hin]; [done || discriminate Hk|]).
  by apply elem_of_nil in Hin.
Defined.

(** ** Clicking a column the decoder rejects *)

Section ToggleRejected.

Context {V : Type}.
Local Abbreviation Column := (ColumnDefinition V).

Lemma decode_sort_sortBy_inv (columnDefinitions : list Column)
    (keys : option string * option string) (c : string) :
  Sort.sortBy (decode_sort columnDefinitions keys) = Some c ->
  c <> "" /\ is_sortable columnDefinitions c = true.
Proof.
  unfold decode_sort. cbn [Sort.sortBy]. destruct keys as [[s|] o]; cbn [fst default].
  - unfold id. destruct (Js.truthy (Some s)) eqn:Ht; [|done].
    destruct (is_sortable columnDefinitions s) eqn:Hs; [|done].
    simpl. intros [= ->]. split; [by destruct c | done].
  - done.
Qed.

(** On a key the decoder never reports as sort column, [toggleSort]
    always takes its last branch. *)
Lemma toggleSort_on_rejected_key (columnDefinitions : list Column)
    (options : option TableOptions) (searchParams : RawQueryMap) (c : string) :
  is_sortable columnDefinitions c = false \/ c = "" ->
  useTable_toggleSort columnDefinitions options searchParams c
  = setSort options searchParams (Some c) (Some asc).
Proof.
  intros Hrej. unfold useTable_toggleSort, toggleSort.
  rewrite bool_decide_eq_false_2; [done|].
  intros E. rewrite useTableState_sort in E.
  apply decode_sort_sortBy_inv in E as [Hne Hs].
  destruct Hrej as [Hrej|Hrej]; congruence.
Qed.

(** X24.  [toggleSort] never advances on a key the decoder does not
    accept as sort column (a key that names no sortable column, or the
    empty string): from every query map the click writes that key with
    order [asc], so repeated clicks keep pushing the same two values. *)
Theorem toggleSort_rejected_key (columnDefinitions : list Column)
    (options : option TableOptions) (searchParams : RawQueryMap) (c : string) :
  is_sortable columnDefinitions c = false \/ c = "" ->
  exists newParams,
    useTable_toggleSort columnDefinitions options searchParams c = Pushed newParams /\
    sort_keys options newParams = (Some c, Some "asc") /\
    Sort.sortBy (sort (useTableState columnDefinitions options newParams)) = None /\
    useTable_toggleSort columnDefinitions options newParams c = Pushed newParams.
Proof.
  intros Hrej.
  assert (Hnever : forall m,
            Sort.sortBy (sort (useTableState columnDefinitions options m)) <> Some c).
  { intros m E. rewrite useTableState_sort in E.
    apply decode_sort_sortBy_inv in E as [Hne Hs].
    destruct Hrej as [Hrej|Hrej]; congruence. }
  assert (Htoggle : forall m,
            useTable_toggleSort columnDefinitions options m c
            = setSort options m (Some c) (Some asc)).
  { intros m. by apply toggleSort_on_rejected_key. }
  destruct (setSort_pushes options searchParams (Some c) (Some asc))
    as (newParams & Hpush & Hkeys & Hother).
  exists newParams. rewrite !Htoggle. split; [done|]. split; [done|]. split.
  - destruct (Sort.sortBy _) as [d|] eqn:E; [|done].
    pose proof E as E'. rewrite useTableState_sort, Hkeys in E'.
    cbn [decode_sort Sort.sortBy fst default] in E'. unfold id in E'.
    destruct (Js.truthy (Some c) && is_sortable columnDefinitions c); [|done].
    simplify_eq. by destruct (Hnever newParams).
  - rewrite setSort_explicit in Hpush. injection Hpush as <-.
    rewrite setSort_explicit. f_equal.
    pose proof (sort_keys_distinct options) as Hne.
    apply map_eq. intros k.
    destruct (decide (k = QueryKeys.sortOrder (getQueryKeys options))) as [->|];
      [by rewrite !lookup_insert_eq|].
    destruct (decide (k = QueryKeys.sortBy (getQueryKeys options))) as [->|].
    + by rewrite !(lookup_insert_ne _ (QueryKeys.sortOrder (getQueryKeys options))),
        !lookup_insert_eq by congruence.
    + by rewrite !lookup_insert_ne by congruence.
Qed.

End ToggleRejected.

Lemma toggleSort_rejected_key_witness :
  exists newParams,
    useTable_toggleSort TestTable.columnDefinitions None ∅ "age" = Pushed newParams /\
    useTable_toggleSort TestTable.columnDefinitions None newParams "age" = Pushed newParams.
Proof.
  destruct (toggleSort_rejected_key TestTable.columnDefinitions None ∅ "age")
    as (newParams & H1 & _ & _ & H2); [left; reflexivity|].
  exists newParams. split; [exact H1 | exact H2].
Defined.

(** ** The sort toggle on a column keyed by the empty string *)

(** C9.  [parseTableState] keeps the sort column only under
    [sortByParam && ...], and the empty string is falsy: for a column
    keyed by the empty string, sortable or not, the decoded sort column is
    always [null].  From a query map that holds ascending on that column,
    [toggleSort] therefore writes ascending again, where the cycle asks
    for descending: it pushes the map it started from, which decodes to no
    sort column.  The older [toggleSort] compares the raw values and
    writes descending from the same map. *)
Theorem toggleSort_empty_key_stuck {V : Type}
    (columnDefinitions : list (ColumnDefinition V)) (options : option TableOptions)
    (searchParams : RawQueryMap) :
  sort_keys options searchParams = (Some "", Some "asc") ->
  searchParams !! LegacyActions.queryKeys_sortBy = Some "" ->
  searchParams !! LegacyActions.queryKeys_sortOrder = Some "asc" ->
  useTable_toggleSort columnDefinitions options searchParams "" = Pushed searchParams /\
  sort (useTableState columnDefinitions options searchParams)
  = {| Sort.sortBy := None; Sort.sortOrder := Some asc |} /\
  (exists newParams,
     LegacyActions.toggleSort searchParams "" = Pushed newParams /\
     newParams !! LegacyActions.queryKeys_sortBy = Some "" /\
     newParams !! LegacyActions.queryKeys_sortOrder = Some "desc").
Proof.
  intros Hkeys Hby Hord. split; [|split].
  - rewrite toggleSort_on_rejected_key by (by right).
    rewrite setSort_explicit. injection Hkeys as Hk1 Hk2.
    by rewrite (insert_id searchParams _ _ Hk1), (insert_id searchParams _ _ Hk2).
  - by rewrite useTableState_sort, Hkeys.
  - unfold LegacyActions.toggleSort, LegacyActions.setSort.
    rewrite Hby, Hord, !bool_decide_eq_true_2 by done.
    eexists. split; [reflexivity|].
    by rewrite !lookup_delete_ne, lookup_insert_ne, !lookup_insert_eq by done.
Qed.

Lemma toggleSort_empty_key_stuck_witness :
  is_sortable (V:=unit)
    [ {| key := ""; sortable := true; initialVisibility := true; filter := None |} ] ""
  = true /\
  useTable_toggleSort (V:=unit)
    [ {| key := ""; sortable := true; initialVisibility := true; filter := None |} ]
    None
    {[ "table_sort_by" := ""; "table_sort_order" := "asc";
       "sortBy" := ""; "sortOrder" := "asc" ]} ""
  = Pushed {[ "table_sort_by" := ""; "table_sort_order" := "asc";
              "sortBy" := ""; "sortOrder" := "asc" ]} /\
  (exists newParams,
     LegacyActions.toggleSort
       {[ "table_sort_by" := ""; "table_sort_order" := "asc";
          "sortBy" := ""; "sortOrder" := "asc" ]} "" = Pushed newParams /\
     newParams !! LegacyActions.queryKeys_sortOrder = Some "desc").
Proof.
  destruct (toggleSort_empty_key_stuck (V:=unit)
              [ {| key := ""; sortable := true; initialVisibility := true;
                   filter := None |} ]
              None
              {[ "table_sort_by" := ""; "table_sort_order" := "asc";
                 "sortBy" := ""; "sortOrder" := "asc" ]})
    as (H1 & _ & m2 & H2 & _ & K2); [by vm_compute..|].
  split; [reflexivity|]. split; [exact H1|]. exists m2. by split.
Defined.
